(** * XPlaneImport: the OBJ8 scan of [XP_import.py]

    A shallow embedding of [XPlaneImport.run]: the line scanner that fills
    the vertex, normal, UV and index buffers, keeps the stack of animation
    translations and records one (origin, index slice) pair per [TRIS]
    line, followed by the loop that groups every slice into triangles and
    hands it to [createMeshFromData].

    Conventions of the embedding.
    - A Python exception aborts [run]; nothing catches it.  Partial
      computations therefore live in [result], whose [Raise] carries the
      exception class.  The state at the point of the exception is lost,
      exactly as in the source.
    - Characters are code points below 256; [Py.split], [Py.int] follow
      CPython on such text.
    - [float] values and their arithmetic are an interface ([Scalar]):
      the buffers and the stack never inspect a float, they only parse,
      negate, convert to a [Vector] component, add and subtract.  Theorems
      that need no arithmetic law hold for every implementation of the
      interface; those that need one assume [ExactScalar].  Two
      instances evaluate the scanner on files: [Scalar_IEEE], binary64
      for Python floats and binary32 for [Vector] components, and
      [Scalar_Qc], rationals that never round, an idealisation that agrees
      with the first one as long as no operation rounds (small integers).
    - The lists of the source are never shared between the scanner's
      variables: [faces[a:b]] builds a new list, [origin_temp + o_t] and
      [origin_temp - x] build new vectors, and [origin_temp] is only ever
      rebound.  Plain values are therefore a faithful store.
    - Calls into the host ([bpy]) are recorded, not interpreted: texture
      loads in [textures], mesh creation as the list returned by [run]. *)

From Stdlib Require Import ZArith QArith Qcanon List String Ascii Bool Lia.
From Stdlib Require SpecFloat.
Import ListNotations.

Open Scope string_scope.
Open Scope list_scope.
Open Scope Z_scope.

(** ** Exceptions *)

Inductive exn : Type :=
| IndexError
| ValueError.

Inductive result (A : Type) : Type :=
| Ok (a : A)
| Raise (e : exn).

Arguments Ok {A} a.
Arguments Raise {A} e.

Definition bind {A B : Type} (c : result A) (k : A -> result B) : result B :=
  match c with
  | Ok a => k a
  | Raise e => Raise e
  end.

Notation "x <- c ;; k" := (bind c (fun x => k))
  (at level 61, c at next level, right associativity).

Notation "' p <- c ;; k" := (bind c (fun x => let 'p := x in k))
  (at level 61, p pattern, c at next level, right associativity).

Fixpoint mapM {A B : Type} (f : A -> result B) (l : list A) : result (list B) :=
  match l with
  | [] => Ok []
  | a :: r => b <- f a ;; bs <- mapM f r ;; Ok (b :: bs)
  end.

(** ** The Python primitives the scanner relies on *)

Module Py.

(** [str.isspace] on one character. *)
Definition isspace (c : ascii) : bool :=
  existsb (Nat.eqb (nat_of_ascii c))
    [9; 10; 11; 12; 13; 28; 29; 30; 31; 32; 133; 160]%nat.

(** [str.split()] without arguments: maximal runs of non-blank characters. *)
Fixpoint split_from (tok : string) (s : string) : list string :=
  match s with
  | EmptyString =>
      match tok with
      | EmptyString => []
      | _ => [tok]
      end
  | String c r =>
      if isspace c then
        match tok with
        | EmptyString => split_from EmptyString r
        | _ => tok :: split_from EmptyString r
        end
      else split_from (tok ++ String c EmptyString)%string r
  end.

Definition split (s : string) : list string := split_from EmptyString s.

(** [l[k]] for a constant [k >= 0]. *)
Definition getitem {A : Type} (l : list A) (k : nat) : result A :=
  match nth_error l k with
  | Some a => Ok a
  | None => Raise IndexError
  end.

Fixpoint update {A : Type} (l : list A) (k : nat) (v : A) : list A :=
  match l, k with
  | [], _ => []
  | _ :: r, O => v :: r
  | a :: r, S k' => a :: update r k' v
  end.

(** [l[i] = v] for an integer [i]; negative indices count from the end. *)
Definition setitem {A : Type} (l : list A) (i : Z) (v : A) : result (list A) :=
  let n := Z.of_nat (List.length l) in
  if (- n <=? i) && (i <? n)
  then Ok (update l (Z.to_nat (if i <? 0 then i + n else i)) v)
  else Raise IndexError.

(** [l.pop()]: the last element and the list without it. *)
Fixpoint pop {A : Type} (l : list A) : result (A * list A) :=
  match l with
  | [] => Raise IndexError
  | a :: r =>
      match r with
      | [] => Ok (a, [])
      | _ :: _ => '(x, r') <- pop r ;; Ok (x, a :: r')
      end
  end.

(** How a slice bound is clamped against a list of length [n]. *)
Definition slice_index (n i : Z) : Z :=
  if i <? 0 then Z.max (i + n) 0 else Z.min i n.

(** [l[start:stop]]: never raises, always a fresh list. *)
Definition slice {A : Type} (l : list A) (start stop : Z) : list A :=
  let n := Z.of_nat (List.length l) in
  let lo := slice_index n start in
  let hi := slice_index n stop in
  firstn (Z.to_nat (hi - lo)) (skipn (Z.to_nat lo) l).

(** Decimal literals.  [digitpart ::= digit (["_"] digit)*]. *)
Definition digit_of (c : ascii) : option Z :=
  let n := nat_of_ascii c in
  if (48 <=? n)%nat && (n <=? 57)%nat then Some (Z.of_nat (n - 48)) else None.

Fixpoint digits_more (s : list ascii) : list Z * list ascii :=
  match s with
  | [] => ([], [])
  | c :: r =>
      match digit_of c with
      | Some d => let '(ds, rest) := digits_more r in (d :: ds, rest)
      | None =>
          if Ascii.eqb c "_" then
            match r with
            | c' :: r' =>
                match digit_of c' with
                | Some d => let '(ds, rest) := digits_more r' in (d :: ds, rest)
                | None => ([], s)
                end
            | [] => ([], s)
            end
          else ([], s)
      end
  end.

Definition digitpart (s : list ascii) : option (list Z * list ascii) :=
  match s with
  | [] => None
  | c :: r =>
      match digit_of c with
      | Some d => let '(ds, rest) := digits_more r in Some (d :: ds, rest)
      | None => None
      end
  end.

Definition value (ds : list Z) : Z :=
  fold_left (fun acc d => 10 * acc + d) ds 0.

Definition sign (s : list ascii) : Z * list ascii :=
  match s with
  | c :: r =>
      if Ascii.eqb c "+" then (1, r)
      else if Ascii.eqb c "-" then (-1, r)
      else (1, s)
  | [] => (1, s)
  end.

(** [int(tok)] on a blank-free token. *)
Definition int (tok : string) : result Z :=
  let '(sg, r) := sign (list_ascii_of_string tok) in
  match digitpart r with
  | Some (ds, []) => Ok (sg * value ds)
  | _ => Raise ValueError
  end.

(** The [zip] of three references to one iterator over [obj]: consecutive
    triples; one or two trailing elements are dropped, as [zip] stops at
    the first exhausted argument. *)
Fixpoint triplets {A : Type} (l : list A) : list (A * A * A) :=
  match l with
  | a :: b :: c :: r => (a, b, c) :: triplets r
  | _ => []
  end.

End Py.

(** ** Floats and vectors *)

(** What the scanner asks of Python floats and of [mathutils.Vector]
    components: [float(tok)] ([None] stands for [ValueError]), the literal
    [0], [x * -1], the conversion of a number to a component of a
    [Vector] (which stores single precision), and the [+] and [-] of
    components. *)
Class Scalar (F : Type) : Type := {
  float : string -> option F;
  fzero : F;
  neg1 : F -> F;
  single : F -> F;
  fadd : F -> F -> F;
  fsub : F -> F -> F
}.

(** Arithmetic without rounding: an idealisation.  The floats the source
    computes with do not satisfy it ([IEEE_not_exact] below); it holds of
    [Qc], and results stated under it say what the scan does as long as
    no operation rounds. *)
Class ExactScalar (F : Type) `{Scalar F} : Prop := {
  single_exact : forall a : F, single a = a;
  fadd_zero_r : forall a : F, fadd a fzero = a;
  fsub_fadd : forall a b : F, fsub (fadd a b) b = a
}.

Definition Vector (F : Type) : Type := (F * F * F)%type.

Section Vectors.
Context {F : Type} `{Scalar F}.

(** [Vector((x, y, z))]. *)
Definition mkVector (t : F * F * F) : Vector F :=
  let '(x, y, z) := t in (single x, single y, single z).

(** [Vector((0, 0, 0))]. *)
Definition Vector_zero : Vector F := mkVector (fzero, fzero, fzero).

Definition Vector_add (a b : Vector F) : Vector F :=
  let '(ax, ay, az) := a in
  let '(bx, by_, bz) := b in
  (fadd ax bx, fadd ay by_, fadd az bz).

Definition Vector_sub (a b : Vector F) : Vector F :=
  let '(ax, ay, az) := a in
  let '(bx, by_, bz) := b in
  (fsub ax bx, fsub ay by_, fsub az bz).

(** The sum of a list of frames, bottom of the stack first. *)
Definition Vector_sum (l : list (Vector F)) : Vector F :=
  fold_left Vector_add l Vector_zero.
End Vectors.

(** ** Exact decimal floats *)

Module Decimal.

(** [number ::= [digitpart] "." digitpart | digitpart ["."]]: the digits
    before and after the point, and the unread rest. *)
Definition number (s : list ascii)
  : option (list Z * list Z * list ascii) :=
  match s with
  | [] => None
  | c :: r =>
      if Ascii.eqb c "." then
        match Py.digitpart r with
        | Some (fp, rest) => Some ([], fp, rest)
        | None => None
        end
      else
        match Py.digitpart s with
        | Some (ip, rest) =>
            match rest with
            | c' :: r' =>
                if Ascii.eqb c' "." then
                  match Py.digitpart r' with
                  | Some (fp, rest') => Some (ip, fp, rest')
                  | None => Some (ip, [], r')
                  end
                else Some (ip, [], rest)
            | [] => Some (ip, [], [])
            end
        | None => None
        end
  end.

(** [exponent ::= ("e" | "E") [sign] digitpart], up to the end of the token. *)
Definition exponent (s : list ascii) : option Z :=
  match s with
  | [] => Some 0
  | c :: r =>
      if Ascii.eqb c "e" || Ascii.eqb c "E" then
        let '(sg, r') := Py.sign r in
        match Py.digitpart r' with
        | Some (ds, []) => Some (sg * Py.value ds)
        | _ => None
        end
      else None
  end.

(** [m * 10 ^ e] as a fraction. *)
Definition scaled (m e : Z) : Q :=
  if 0 <=? e then Qmake (m * 10 ^ e) 1 else Qmake m (Z.to_pos (10 ^ (- e))).

(** [float(tok)] for finite decimal literals, without rounding.  The
    spellings of infinity and NaN have no exact value and are outside this
    instance. *)
Definition parse (tok : string) : option Qc :=
  let '(sg, r) := Py.sign (list_ascii_of_string tok) in
  match number r with
  | Some (ip, fp, rest) =>
      match exponent rest with
      | Some e =>
          Some (Q2Qc (scaled (sg * Py.value (ip ++ fp))
                             (e - Z.of_nat (List.length fp))))
      | None => None
      end
  | None => None
  end.

End Decimal.

(** Rationals: every finite decimal literal has its exact value and no
    operation rounds.  The values agree with [Scalar_IEEE] on files whose
    numbers and sums are integers below [2 ^ 24]. *)
#[export] Instance Scalar_Qc : Scalar Qc := {
  float := Decimal.parse;
  fzero := Q2Qc 0;
  neg1 := fun x => Qcmult x (Q2Qc (-1));
  single := fun x => x;
  fadd := Qcplus;
  fsub := Qcminus
}.

(** ** IEEE 754 floats *)

(** Python floats are binary64, the components of a [mathutils.Vector]
    are binary32, both with round to nearest even.  [spec_float] holds the
    values of either format; the operations are those of the standard
    library's executable specification, at precision 53 for what Python
    computes and at precision 24 for what a [Vector] stores and
    computes. *)

Module IEEE.
Import SpecFloat.

(** The binary64 nearest to [m * 10 ^ k], with the sign [neg].  For a
    negative [k] the quotient is taken with 64 bits to spare and the
    remainder tells on which side of the midpoint the exact value lies. *)
Definition of_decimal (neg : bool) (m k : Z) : spec_float :=
  match m with
  | Z0 => S754_zero neg
  | Zpos p =>
      if 0 <=? k then binary_round 53 1024 neg (Z.to_pos (m * 10 ^ k)) 0
      else
        let d := 10 ^ (- k) in
        let s := Z.log2 d + 64 in
        let n := m * 2 ^ s in
        let q := n / d in
        let r := n mod d in
        let loc :=
          if r =? 0 then loc_Exact else loc_Inexact (Z.compare (2 * r) d) in
        binary_round_aux 53 1024 neg q (- s) loc
  | Zneg _ => S754_nan
  end.

Definition lower (c : ascii) : ascii :=
  let n := nat_of_ascii c in
  if (65 <=? n)%nat && (n <=? 90)%nat then ascii_of_nat (n + 32) else c.

(** The spellings of infinity and NaN, in any case. *)
Definition special (neg : bool) (s : list ascii) : option spec_float :=
  let w := string_of_list_ascii (map lower s) in
  if ((w =? "inf") || (w =? "infinity"))%string then Some (S754_infinity neg)
  else if (w =? "nan")%string then Some S754_nan
  else None.

(** [float(tok)] on a blank-free token:
    [[sign] (floatnumber | infinity | nan)]. *)
Definition parse (tok : string) : option spec_float :=
  let '(sg, r) := Py.sign (list_ascii_of_string tok) in
  let neg := sg <? 0 in
  match Decimal.number r with
  | Some (ip, fp, rest) =>
      match Decimal.exponent rest with
      | Some e =>
          Some (of_decimal neg (Py.value (ip ++ fp))
                           (e - Z.of_nat (List.length fp)))
      | None => None
      end
  | None => special neg r
  end.

(** The conversion of a binary64 to binary32. *)
Definition to_single (x : spec_float) : spec_float :=
  match x with
  | S754_finite s m e => binary_round 24 128 s m e
  | _ => x
  end.

(** [-1.0]. *)
Definition minus_one : spec_float := SFopp (SFone 53 1024).

End IEEE.

#[export] Instance Scalar_IEEE : Scalar SpecFloat.spec_float | 10 := {
  float := IEEE.parse;
  fzero := SpecFloat.S754_zero false;
  neg1 := fun x => SpecFloat.SFmul 53 1024 x IEEE.minus_one;
  single := IEEE.to_single;
  fadd := SpecFloat.SFadd 24 128;
  fsub := SpecFloat.SFsub 24 128
}.

(** ** The scanner state: the local variables of [run] *)

(** [removed_faces_regions] is never read or written after its
    initialisation and has no field; [material] and [node_tree] belong to
    the host, whose calls are kept in [textures]. *)
Record state (F : Type) : Type := mkState {
  verts : list (F * F * F);
  uv : list (F * F);
  faces : list Z;
  normals : list (F * F * F);
  origin_temp : Vector F;
  anim_nesting : Z;
  a_trans : list (Vector F);
  trans_available : bool;
  objects : list (Vector F * list Z);
  textures : list string
}.

Arguments mkState {F}.
Arguments verts {F}.
Arguments uv {F}.
Arguments faces {F}.
Arguments normals {F}.
Arguments origin_temp {F}.
Arguments anim_nesting {F}.
Arguments a_trans {F}.
Arguments trans_available {F}.
Arguments objects {F}.
Arguments textures {F}.

(** One call of [createMeshFromData]: the counter that ends the mesh name,
    then [origin], [verts], [faces], [vert_uvs], [vert_normals]. *)
Record mesh (F : Type) : Type := mkMesh {
  mesh_counter : nat;
  mesh_origin : Vector F;
  mesh_verts : list (F * F * F);
  mesh_faces : list (Z * Z * Z);
  mesh_uvs : list (F * F);
  mesh_normals : list (F * F * F)
}.

Arguments mkMesh {F}.
Arguments mesh_counter {F}.
Arguments mesh_origin {F}.
Arguments mesh_verts {F}.
Arguments mesh_faces {F}.
Arguments mesh_uvs {F}.
Arguments mesh_normals {F}.

Section Scanner.
Context {F : Type} `{Scalar F}.

(** The variables as [run] initialises them; [a_trans] starts with the
    root frame. *)
Definition init : state F :=
  mkState [] [] [] [] Vector_zero 0 [Vector_zero] false [] [].

(** [float(line[k])]. *)
Definition field (line : list string) (k : nat) : result F :=
  tok <- Py.getitem line k ;;
  match float tok with
  | Some x => Ok x
  | None => Raise ValueError
  end.

(** [int(line[k])]. *)
Definition ifield (line : list string) (k : nat) : result Z :=
  tok <- Py.getitem line k ;; Py.int tok.

(** [self.loadTexture(node_tree, name)], a host call. *)
Definition loadTexture (name : string) (st : state F) : state F :=
  mkState (verts st) (uv st) (faces st) (normals st) (origin_temp st)
          (anim_nesting st) (a_trans st) (trans_available st) (objects st)
          (textures st ++ [name]).

(** [TEXTURE], [TEXTURE_DRAPED], [TEXTURE_LIT], [TEXTURE_NORMAL]. *)
Definition on_TEXTURE (line : list string) (st : state F) : result (state F) :=
  name <- Py.getitem line 1 ;;
  Ok (loadTexture name st).

(** [TEXTURE_DRAPED_NORMAL]: the ratio is read, then the file name. *)
Definition on_TEXTURE_DRAPED_NORMAL (line : list string) (st : state F)
  : result (state F) :=
  drapedRatio <- Py.getitem line 1 ;;
  name <- Py.getitem line 2 ;;
  Ok (loadTexture name st).

Definition on_VT (line : list string) (st : state F) : result (state F) :=
  vx <- field line 1 ;;
  vy <- field line 3 ;;
  vz <- field line 2 ;;
  let verts' := verts st ++ [(vx, neg1 vy, vz)] in
  vnx <- field line 4 ;;
  vny <- field line 6 ;;
  vnz <- field line 5 ;;
  let normals' := normals st ++ [(vnx, neg1 vny, vnz)] in
  uvx <- field line 7 ;;
  uvy <- field line 8 ;;
  let uv' := uv st ++ [(uvx, uvy)] in
  Ok (mkState verts' uv' (faces st) normals' (origin_temp st)
              (anim_nesting st) (a_trans st) (trans_available st)
              (objects st) (textures st)).

(** [IDX10] and [IDX]: [faces.extend(map(int, line[1:]))]. *)
Definition on_IDX (line : list string) (st : state F) : result (state F) :=
  idx <- mapM Py.int (tl line) ;;
  Ok (mkState (verts st) (uv st) (faces st ++ idx) (normals st)
              (origin_temp st) (anim_nesting st) (a_trans st)
              (trans_available st) (objects st) (textures st)).

Definition on_ANIM_begin (st : state F) : result (state F) :=
  Ok (mkState (verts st) (uv st) (faces st) (normals st) (origin_temp st)
              (anim_nesting st + 1) (a_trans st ++ [Vector_zero])
              (trans_available st) (objects st) (textures st)).

Definition on_ANIM_trans (line : list string) (st : state F)
  : result (state F) :=
  trans_x <- field line 1 ;;
  trans_y <- field line 3 ;;
  trans_z <- field line 2 ;;
  let o_t := mkVector (trans_x, neg1 trans_y, trans_z) in
  a_trans' <- Py.setitem (a_trans st) (anim_nesting st) o_t ;;
  Ok (mkState (verts st) (uv st) (faces st) (normals st)
              (Vector_add (origin_temp st) o_t)
              (anim_nesting st) a_trans' true (objects st) (textures st)).

Definition on_ANIM_end (st : state F) : result (state F) :=
  let anim_nesting' := anim_nesting st - 1 in
  '(top, a_trans') <- Py.pop (a_trans st) ;;
  Ok (mkState (verts st) (uv st) (faces st) (normals st)
              (Vector_sub (origin_temp st) top)
              anim_nesting' a_trans'
              (if anim_nesting' =? 0 then false else trans_available st)
              (objects st) (textures st)).

Definition on_TRIS (origo : F * F * F) (line : list string) (st : state F)
  : result (state F) :=
  tris_offset <- ifield line 1 ;;
  tris_count <- ifield line 2 ;;
  let obj_lst := Py.slice (faces st) tris_offset (tris_offset + tris_count) in
  let obj_origin := if trans_available st then origin_temp st else mkVector origo in
  Ok (mkState (verts st) (uv st) (faces st) (normals st) (origin_temp st)
              (anim_nesting st) (a_trans st) (trans_available st)
              (objects st ++ [(obj_origin, obj_lst)]) (textures st)).

(** One [if (line[0] == ...)] of the loop body. *)
Definition when (c : bool) (f : state F -> result (state F)) (st : state F)
  : result (state F) :=
  if c then f st else Ok st.

(** The body of [for lineStr in lines]: a blank line is skipped, then
    every [if] is tried in turn. *)
Definition step (origo : F * F * F) (lineStr : string) (st : state F)
  : result (state F) :=
  let line := Py.split lineStr in
  match line with
  | [] => Ok st
  | kw :: _ =>
      st <- when ((kw =? "TEXTURE") || (kw =? "TEXTURE_DRAPED"))%string
                 (on_TEXTURE line) st ;;
      st <- when (kw =? "TEXTURE_LIT")%string (on_TEXTURE line) st ;;
      st <- when (kw =? "TEXTURE_NORMAL")%string (on_TEXTURE line) st ;;
      st <- when (kw =? "TEXTURE_DRAPED_NORMAL")%string
                 (on_TEXTURE_DRAPED_NORMAL line) st ;;
      st <- when (kw =? "VT")%string (on_VT line) st ;;
      st <- when ((kw =? "IDX10") || (kw =? "IDX"))%string (on_IDX line) st ;;
      st <- when (kw =? "ANIM_begin")%string on_ANIM_begin st ;;
      st <- when (kw =? "ANIM_trans")%string (on_ANIM_trans line) st ;;
      st <- when (kw =? "ANIM_end")%string on_ANIM_end st ;;
      when (kw =? "TRIS")%string (on_TRIS origo line) st
  end.

Fixpoint scan (origo : F * F * F) (lines : list string) (st : state F)
  : result (state F) :=
  match lines with
  | [] => Ok st
  | lineStr :: rest => st' <- step origo lineStr st ;; scan origo rest st'
  end.

(** [for orig, obj in objects]: one mesh per descriptor, numbered from
    [counter]. *)
Fixpoint createMeshes (st : state F) (counter : nat)
         (objs : list (Vector F * list Z)) : list (mesh F) :=
  match objs with
  | [] => []
  | (orig, obj) :: rest =>
      mkMesh counter orig (verts st) (Py.triplets obj) (uv st) (normals st)
      :: createMeshes st (S counter) rest
  end.

(** What [run] hands to [createMeshFromData], call by call, once the scan
    has completed: the arguments of every call of the final loop, each
    call taken to return.  [createMeshFromData] can raise on them;
    [run_calls], further down, stops the loop where it does. *)
Definition run (lines : list string) (origo : F * F * F)
  : result (list (mesh F)) :=
  st <- scan origo lines init ;;
  Ok (createMeshes st 0 (objects st)).

End Scanner.

#[export] Instance ExactScalar_Qc : ExactScalar Qc.
Proof.
  split; intros; simpl.
  - reflexivity.
  - apply Qcplus_0_r.
  - unfold Qcminus. rewrite <- Qcplus_assoc, Qcplus_opp_r. apply Qcplus_0_r.
Qed.

(** ** Facts about the Python primitives *)

Module PyFacts.

Lemma pop_app {A : Type} (l : list A) (x : A) :
  Py.pop (l ++ [x]) = Ok (x, l).
Proof.
  induction l as [|a l IH]; [reflexivity|].
  change ((a :: l) ++ [x]) with (a :: (l ++ [x])).
  remember (l ++ [x]) as m eqn:E.
  destruct m as [|b m]; [destruct l; discriminate|].
  change (Py.pop (a :: b :: m))
    with ('(y, r') <- Py.pop (b :: m) ;; Ok (y, a :: r')).
  rewrite IH. reflexivity.
Qed.

Lemma pop_nil {A : Type} : Py.pop (@nil A) = Raise IndexError.
Proof. reflexivity. Qed.

Lemma pop_inv {A : Type} (l l' : list A) (x : A) :
  Py.pop l = Ok (x, l') -> l = l' ++ [x].
Proof.
  destruct (rev l) as [|y r] eqn:E.
  - apply (f_equal (@rev A)) in E. rewrite rev_involutive in E. subst l.
    discriminate.
  - apply (f_equal (@rev A)) in E. rewrite rev_involutive in E. simpl in E.
    subst l. rewrite pop_app. intros [= -> ->]. reflexivity.
Qed.

Lemma update_length {A : Type} (l : list A) (k : nat) (v : A) :
  List.length (Py.update l k v) = List.length l.
Proof.
  revert k; induction l as [|a l IH]; intros [|k]; simpl; auto.
Qed.

Lemma update_last {A : Type} (l : list A) (x v : A) :
  Py.update (l ++ [x]) (List.length l) v = l ++ [v].
Proof.
  induction l as [|a l IH]; simpl; [reflexivity|]. now rewrite IH.
Qed.

Lemma setitem_length {A : Type} (l l' : list A) (i : Z) (v : A) :
  Py.setitem l i v = Ok l' -> List.length l' = List.length l.
Proof.
  unfold Py.setitem. destruct (_ && _); [|discriminate].
  intros [= <-]. apply update_length.
Qed.

(** Writing at the index of the last element. *)
Lemma setitem_last {A : Type} (l : list A) (x v : A) :
  Py.setitem (l ++ [x]) (Z.of_nat (List.length l)) v = Ok (l ++ [v]).
Proof.
  unfold Py.setitem. rewrite length_app. simpl List.length.
  replace (_ && _) with true
    by (symmetry; apply andb_true_iff; split;
        [apply Z.leb_le | apply Z.ltb_lt]; lia).
  replace (Z.of_nat (List.length l) <? 0) with false
    by (symmetry; apply Z.ltb_ge; lia).
  rewrite Nat2Z.id. now rewrite update_last.
Qed.

Lemma setitem_nil {A : Type} (i : Z) (v : A) :
  Py.setitem [] i v = Raise IndexError.
Proof.
  unfold Py.setitem. simpl List.length.
  replace (_ && _) with false; [reflexivity|].
  symmetry. apply andb_false_iff.
  destruct (Z.ltb_spec i (Z.of_nat 0)) as [Hi|Hi]; [left | now right].
  apply Z.leb_gt. simpl in *. lia.
Qed.

(** A slice whose bounds lie inside the list. *)
Lemma slice_inside {A : Type} (l : list A) (off cnt : Z) :
  0 <= off -> 0 <= cnt -> off + cnt <= Z.of_nat (List.length l) ->
  Py.slice l off (off + cnt) = firstn (Z.to_nat cnt) (skipn (Z.to_nat off) l).
Proof.
  intros Ho Hc Hn. unfold Py.slice, Py.slice_index.
  replace (off <? 0) with false by (symmetry; apply Z.ltb_ge; lia).
  replace (off + cnt <? 0) with false by (symmetry; apply Z.ltb_ge; lia).
  rewrite !Z.min_l by lia. f_equal. lia.
Qed.

(** A slice that starts inside the list and runs past its end. *)
Lemma slice_past_end {A : Type} (l : list A) (off cnt : Z) :
  0 <= off -> Z.of_nat (List.length l) < off + cnt ->
  Py.slice l off (off + cnt) = skipn (Z.to_nat off) l.
Proof.
  intros Ho Hn. unfold Py.slice, Py.slice_index.
  replace (off <? 0) with false by (symmetry; apply Z.ltb_ge; lia).
  replace (off + cnt <? 0) with false by (symmetry; apply Z.ltb_ge; lia).
  rewrite (Z.min_r (off + cnt)) by lia.
  destruct (Z.le_gt_cases off (Z.of_nat (List.length l))) as [Hle|Hgt].
  - rewrite Z.min_l by lia.
    apply firstn_all2. rewrite length_skipn. lia.
  - rewrite Z.min_r by lia. rewrite Nat2Z.id.
    rewrite !skipn_all2 by lia. now destruct (Z.to_nat _).
Qed.

Lemma slice_incl {A : Type} (l : list A) (a b : Z) (x : A) :
  In x (Py.slice l a b) -> In x l.
Proof.
  unfold Py.slice. intros Hin.
  assert (Hf : forall n (m : list A), incl (firstn n m) m).
  { intros n m. rewrite <- (firstn_skipn n m) at 2. apply incl_appl, incl_refl. }
  assert (Hs : forall n, incl (skipn n l) l).
  { intros n. rewrite <- (firstn_skipn n l) at 2. apply incl_appr, incl_refl. }
  exact (Hs _ _ (Hf _ _ _ Hin)).
Qed.

(** Flattening triples back into a list. *)
Fixpoint flatten {A : Type} (l : list (A * A * A)) : list A :=
  match l with
  | [] => []
  | (a, b, c) :: r => a :: b :: c :: flatten r
  end.

Lemma triplets_ind3 {A : Type} (P : list A -> Prop) :
  P [] -> (forall a, P [a]) -> (forall a b, P [a; b]) ->
  (forall a b c r, P r -> P (a :: b :: c :: r)) ->
  forall l, P l.
Proof.
  intros H0 H1 H2 H3.
  fix IH 1.
  intros [|a [|b [|c r]]];
    [exact H0 | exact (H1 a) | exact (H2 a b) | exact (H3 a b c r (IH r))].
Qed.

Lemma triplets_length {A : Type} (l : list A) :
  List.length (Py.triplets l) = (List.length l / 3)%nat.
Proof.
  induction l as [| a | a b | a b c r IH] using triplets_ind3;
    try reflexivity.
  cbn [Py.triplets List.length]. rewrite IH.
  change (S (S (S (List.length r)))) with (3 + List.length r)%nat.
  replace (3 + List.length r)%nat with (List.length r + 1 * 3)%nat by lia.
  rewrite Nat.div_add by lia. lia.
Qed.

Lemma triplets_flatten {A : Type} (l : list A) :
  flatten (Py.triplets l) = firstn (3 * (List.length l / 3)) l.
Proof.
  induction l as [| a | a b | a b c r IH] using triplets_ind3;
    try reflexivity.
  cbn [Py.triplets flatten List.length]. rewrite IH.
  change (S (S (S (List.length r)))) with (3 + List.length r)%nat.
  replace (3 + List.length r)%nat with (List.length r + 1 * 3)%nat by lia.
  rewrite Nat.div_add by lia.
  replace (3 * (List.length r / 3 + 1))%nat
    with (S (S (S (3 * (List.length r / 3)))))%nat by lia.
  reflexivity.
Qed.

End PyFacts.

(** ** The loop body, keyword by keyword *)

(** Unfolds the successful binds of a hypothesis [c = Ok _]. *)
Ltac bind_inv H :=
  repeat match type of H with
  | bind ?c _ = Ok _ =>
      let E := fresh "E" in
      destruct c eqn:E; cbn [bind] in H; [|discriminate H]
  | (let '(_, _) := ?p in _) = Ok _ => destruct p
  end.

Section Dispatch.
Context {F : Type} `{Scalar F}.

(** The keywords are pairwise different and [line] is not assigned in the
    loop body, so at most one [if] fires: the chain of [if]s is a
    case distinction. *)
Definition dispatch (origo : F * F * F) (line : list string) (kw : string)
           (st : state F) : result (state F) :=
  if ((kw =? "TEXTURE") || (kw =? "TEXTURE_DRAPED"))%string
  then on_TEXTURE line st
  else if (kw =? "TEXTURE_LIT")%string then on_TEXTURE line st
  else if (kw =? "TEXTURE_NORMAL")%string then on_TEXTURE line st
  else if (kw =? "TEXTURE_DRAPED_NORMAL")%string
  then on_TEXTURE_DRAPED_NORMAL line st
  else if (kw =? "VT")%string then on_VT line st
  else if ((kw =? "IDX10") || (kw =? "IDX"))%string then on_IDX line st
  else if (kw =? "ANIM_begin")%string then on_ANIM_begin st
  else if (kw =? "ANIM_trans")%string then on_ANIM_trans line st
  else if (kw =? "ANIM_end")%string then on_ANIM_end st
  else if (kw =? "TRIS")%string then on_TRIS origo line st
  else Ok st.

Lemma bind_ret (c : result (state F)) : (st <- c ;; Ok st) = c.
Proof. now destruct c. Qed.

Lemma step_dispatch (origo : F * F * F) (lineStr : string) (st : state F) :
  step origo lineStr st =
  match Py.split lineStr with
  | [] => Ok st
  | kw :: args => dispatch origo (kw :: args) kw st
  end.
Proof.
  unfold step. destruct (Py.split lineStr) as [|kw args]; [reflexivity|].
  unfold dispatch.
  repeat match goal with
  | |- context [String.eqb kw ?s] =>
      destruct (String.eqb_spec kw s) as [->|_];
      [ cbn [when bind orb String.eqb Ascii.eqb Bool.eqb];
        first [ apply bind_ret | reflexivity ]
      | cbn [when bind orb] ]
  end.
  reflexivity.
Qed.

(** What holds before a line and is kept by each handler holds after it. *)
Lemma step_preserves (P : state F -> Prop) (origo : F * F * F) :
  (forall name st, P st -> P (loadTexture name st)) ->
  (forall line st st', on_VT line st = Ok st' -> P st -> P st') ->
  (forall line st st', on_IDX line st = Ok st' -> P st -> P st') ->
  (forall st st', on_ANIM_begin st = Ok st' -> P st -> P st') ->
  (forall line st st', on_ANIM_trans line st = Ok st' -> P st -> P st') ->
  (forall st st', on_ANIM_end st = Ok st' -> P st -> P st') ->
  (forall line st st', on_TRIS origo line st = Ok st' -> P st -> P st') ->
  forall lineStr st st', step origo lineStr st = Ok st' -> P st -> P st'.
Proof.
  intros Htex Hvt Hidx Hbeg Htr Hend Htris lineStr st st' Hstep HP.
  rewrite step_dispatch in Hstep.
  destruct (Py.split lineStr) as [|kw args]; [now inversion Hstep; subst|].
  assert (Htex1 : forall line, on_TEXTURE line st = Ok st' -> P st').
  { intros line E. unfold on_TEXTURE in E. bind_inv E.
    inversion E; subst. now apply Htex. }
  unfold dispatch in Hstep.
  repeat match type of Hstep with
  | (if ?c then _ else _) = _ => destruct c
  end; eauto.
  - unfold on_TEXTURE_DRAPED_NORMAL in Hstep. bind_inv Hstep.
    inversion Hstep; subst. now apply Htex.
  - now inversion Hstep; subst.
Qed.

Lemma scan_preserves (P : state F -> Prop) (origo : F * F * F) :
  (forall lineStr st st', step origo lineStr st = Ok st' -> P st -> P st') ->
  forall lines st st', scan origo lines st = Ok st' -> P st -> P st'.
Proof.
  intros Hstep lines. induction lines as [|l lines IH]; intros st st' Hs HP.
  - now inversion Hs; subst.
  - cbn [scan] in Hs. bind_inv Hs. eauto.
Qed.

Lemma scan_app (origo : F * F * F) (pre post : list string) (st : state F) :
  scan origo (pre ++ post) st =
  (st' <- scan origo pre st ;; scan origo post st').
Proof.
  revert st. induction pre as [|l pre IH]; intros st; [reflexivity|].
  cbn [scan app]. destruct (step origo l st); cbn [bind]; auto.
Qed.

End Dispatch.

(** ** What each handler does to the state *)

Section Handlers.
Context {F : Type} `{Scalar F}.

Lemma on_VT_inv (line : list string) (st st' : state F) :
  on_VT line st = Ok st' ->
  exists vx vy vz vnx vny vnz uvx uvy,
    field line 1 = Ok vx /\ field line 3 = Ok vy /\ field line 2 = Ok vz /\
    field line 4 = Ok vnx /\ field line 6 = Ok vny /\ field line 5 = Ok vnz /\
    field line 7 = Ok uvx /\ field line 8 = Ok uvy /\
    st' = mkState (verts st ++ [(vx, neg1 vy, vz)]) (uv st ++ [(uvx, uvy)])
                  (faces st) (normals st ++ [(vnx, neg1 vny, vnz)])
                  (origin_temp st) (anim_nesting st) (a_trans st)
                  (trans_available st) (objects st) (textures st).
Proof.
  unfold on_VT. intros E. bind_inv E. inversion E; subst.
  do 8 eexists. repeat (split; [reflexivity|]). reflexivity.
Qed.

Lemma on_IDX_inv (line : list string) (st st' : state F) :
  on_IDX line st = Ok st' ->
  exists idx,
    mapM Py.int (tl line) = Ok idx /\
    st' = mkState (verts st) (uv st) (faces st ++ idx) (normals st)
                  (origin_temp st) (anim_nesting st) (a_trans st)
                  (trans_available st) (objects st) (textures st).
Proof.
  unfold on_IDX. intros E. bind_inv E. inversion E; subst. eauto.
Qed.

Lemma on_ANIM_trans_inv (line : list string) (st st' : state F) :
  on_ANIM_trans line st = Ok st' ->
  exists x y z frames,
    field line 1 = Ok x /\ field line 3 = Ok y /\ field line 2 = Ok z /\
    Py.setitem (a_trans st) (anim_nesting st) (mkVector (x, neg1 y, z))
      = Ok frames /\
    st' = mkState (verts st) (uv st) (faces st) (normals st)
                  (Vector_add (origin_temp st) (mkVector (x, neg1 y, z)))
                  (anim_nesting st) frames true (objects st) (textures st).
Proof.
  unfold on_ANIM_trans. intros E. bind_inv E. inversion E; subst.
  do 4 eexists. repeat (split; [eassumption || reflexivity|]). reflexivity.
Qed.

Lemma on_ANIM_end_inv (st st' : state F) :
  on_ANIM_end st = Ok st' ->
  exists top frames,
    a_trans st = frames ++ [top] /\
    st' = mkState (verts st) (uv st) (faces st) (normals st)
                  (Vector_sub (origin_temp st) top)
                  (anim_nesting st - 1) frames
                  (if anim_nesting st - 1 =? 0 then false
                   else trans_available st)
                  (objects st) (textures st).
Proof.
  unfold on_ANIM_end. intros E.
  destruct (Py.pop (a_trans st)) as [[top frames]|] eqn:Ep;
    cbn [bind] in E; [|discriminate].
  inversion E; subst. exists top, frames. split; [|reflexivity].
  now apply PyFacts.pop_inv.
Qed.

Lemma on_TRIS_inv (origo : F * F * F) (line : list string) (st st' : state F) :
  on_TRIS origo line st = Ok st' ->
  exists off cnt,
    ifield line 1 = Ok off /\ ifield line 2 = Ok cnt /\
    st' = mkState (verts st) (uv st) (faces st) (normals st) (origin_temp st)
                  (anim_nesting st) (a_trans st) (trans_available st)
                  (objects st ++
                     [(if trans_available st then origin_temp st else mkVector origo,
                       Py.slice (faces st) off (off + cnt))])
                  (textures st).
Proof.
  unfold on_TRIS. intros E. bind_inv E. inversion E; subst. eauto.
Qed.

(** A line read through its tokens. *)
Lemma step_tokens (origo : F * F * F) (lineStr kw : string)
      (args : list string) (st : state F) :
  Py.split lineStr = kw :: args ->
  step origo lineStr st = dispatch origo (kw :: args) kw st.
Proof. intros E. now rewrite step_dispatch, E. Qed.

Lemma field_ok (line : list string) (k : nat) (tok : string) (x : F) :
  nth_error line k = Some tok -> float tok = Some x -> field line k = Ok x.
Proof.
  intros Hn Hf. unfold field, Py.getitem. rewrite Hn. cbn [bind].
  now rewrite Hf.
Qed.

Lemma ifield_ok (line : list string) (k : nat) (tok : string) (n : Z) :
  nth_error line k = Some tok -> Py.int tok = Ok n -> ifield line k = Ok n.
Proof.
  intros Hn Hi. unfold ifield, Py.getitem. now rewrite Hn.
Qed.

End Handlers.

(** ** Invariants of the scan *)

Section Invariants.
Context {F : Type} `{Scalar F}.

(** The frame list is one longer than the nesting counter. *)
Definition stack_shape (st : state F) : Prop :=
  Z.of_nat (List.length (a_trans st)) = anim_nesting st + 1.

(** The three vertex buffers grow together. *)
Definition buffers_aligned (st : state F) : Prop :=
  List.length (verts st) = List.length (normals st) /\
  List.length (verts st) = List.length (uv st).

(** Every recorded slice is made of entries of the index buffer. *)
Definition objects_from_faces (st : state F) : Prop :=
  forall orig obj i, In (orig, obj) (objects st) -> In i obj -> In i (faces st).

(** [objects] only grows, at its end. *)
Definition objects_extend (st0 st : state F) : Prop :=
  exists more, objects st = objects st0 ++ more.

Lemma stack_shape_init : stack_shape init.
Proof. reflexivity. Qed.

Lemma stack_shape_step (origo : F * F * F) (lineStr : string) (st st' : state F) :
  step origo lineStr st = Ok st' -> stack_shape st -> stack_shape st'.
Proof.
  apply step_preserves; unfold stack_shape; clear; try (intros; assumption).
  - intros line st st' E. apply on_VT_inv in E.
    destruct E as (? & ? & ? & ? & ? & ? & ? & ? & E). 
    decompose [and] E; subst; auto.
  - intros line st st' E. apply on_IDX_inv in E.
    destruct E as (? & _ & ->); auto.
  - intros st st' E. inversion E; subst; cbn.
    rewrite length_app. cbn. lia.
  - intros line st st' E. apply on_ANIM_trans_inv in E.
    destruct E as (x & y & z & frames & _ & _ & _ & Hset & ->). cbn.
    apply PyFacts.setitem_length in Hset. now rewrite Hset.
  - intros st st' E. apply on_ANIM_end_inv in E.
    destruct E as (top & frames & Hfr & ->). cbn. rewrite Hfr.
    rewrite length_app. cbn. lia.
  - intros line st st' E. apply on_TRIS_inv in E.
    destruct E as (? & ? & _ & _ & ->); auto.
Qed.

Lemma stack_shape_scan (origo : F * F * F) (lines : list string) (st st' : state F) :
  scan origo lines st = Ok st' -> stack_shape st -> stack_shape st'.
Proof. apply scan_preserves, stack_shape_step. Qed.

Lemma buffers_aligned_step (origo : F * F * F) (lineStr : string)
      (st st' : state F) :
  step origo lineStr st = Ok st' -> buffers_aligned st -> buffers_aligned st'.
Proof.
  apply step_preserves; unfold buffers_aligned; clear;
    try (intros; assumption).
  - intros line st st' E. apply on_VT_inv in E.
    destruct E as (? & ? & ? & ? & ? & ? & ? & ? & E).
    decompose [and] E; subst; cbn. intros [Hn Hu].
    rewrite !length_app, <- Hn, <- Hu. auto.
  - intros line st st' E. apply on_IDX_inv in E.
    destruct E as (? & _ & ->); auto.
  - intros st st' E. inversion E; subst; auto.
  - intros line st st' E. apply on_ANIM_trans_inv in E.
    destruct E as (x & y & z & frames & _ & _ & _ & _ & ->); auto.
  - intros st st' E. apply on_ANIM_end_inv in E.
    destruct E as (top & frames & _ & ->); auto.
  - intros line st st' E. apply on_TRIS_inv in E.
    destruct E as (? & ? & _ & _ & ->); auto.
Qed.

Lemma objects_from_faces_step (origo : F * F * F) (lineStr : string)
      (st st' : state F) :
  step origo lineStr st = Ok st' ->
  objects_from_faces st -> objects_from_faces st'.
Proof.
  apply step_preserves; unfold objects_from_faces; clear;
    try (intros; eauto; fail).
  - intros line st st' E. apply on_VT_inv in E.
    destruct E as (? & ? & ? & ? & ? & ? & ? & ? & E).
    decompose [and] E; subst; cbn. eauto.
  - intros line st st' E. apply on_IDX_inv in E.
    destruct E as (? & _ & ->); cbn. intros. apply in_or_app. eauto.
  - intros st st' E. inversion E; subst; cbn. eauto.
  - intros line st st' E. apply on_ANIM_trans_inv in E.
    destruct E as (x & y & z & frames & _ & _ & _ & _ & ->); cbn. eauto.
  - intros st st' E. apply on_ANIM_end_inv in E.
    destruct E as (top & frames & _ & ->); cbn. eauto.
  - intros line st st' E. apply on_TRIS_inv in E.
    destruct E as (off & cnt & _ & _ & ->); cbn.
    intros Hinv orig obj i Hin Hi. apply in_app_or in Hin.
    destruct Hin as [Hin|[Heq|[]]]; [eauto|].
    inversion Heq; subst. eapply PyFacts.slice_incl; eassumption.
Qed.

Lemma objects_extend_step (origo : F * F * F) (lineStr : string)
      (st0 st st' : state F) :
  step origo lineStr st = Ok st' ->
  objects_extend st0 st -> objects_extend st0 st'.
Proof.
  apply step_preserves; unfold objects_extend; clear - st0;
    try (intros; assumption).
  - intros line st st' E. apply on_VT_inv in E.
    destruct E as (? & ? & ? & ? & ? & ? & ? & ? & E).
    decompose [and] E; subst; auto.
  - intros line st st' E. apply on_IDX_inv in E.
    destruct E as (? & _ & ->); auto.
  - intros st st' E. inversion E; subst; auto.
  - intros line st st' E. apply on_ANIM_trans_inv in E.
    destruct E as (x & y & z & frames & _ & _ & _ & _ & ->); auto.
  - intros st st' E. apply on_ANIM_end_inv in E.
    destruct E as (top & frames & _ & ->); auto.
  - intros line st st' E. apply on_TRIS_inv in E.
    destruct E as (off & cnt & _ & _ & ->); cbn.
    intros [more ->]. rewrite <- app_assoc. eauto.
Qed.

Lemma objects_extend_scan (origo : F * F * F) (lines : list string)
      (st st' : state F) :
  scan origo lines st = Ok st' -> objects_extend st st'.
Proof.
  intros Hs.
  apply (scan_preserves (objects_extend st) origo
           (fun l s s' => objects_extend_step origo l st s s') _ _ _ Hs).
  exists []. now rewrite app_nil_r.
Qed.

End Invariants.

(** ** Evaluation on concrete files *)

(** The float with integer value [n], in the exact instance. *)
Definition num (n : Z) : Qc := Q2Qc (inject_Z n).

(** The placement [execute] passes to [run]. *)
Definition origo0 : Qc * Qc * Qc := (num 0, num 0, num 0).

(** ** Vertex records *)

(** C1, as the source has it.  A [VT] line whose eight numeric fields parse
    to position [(x, y, z)], normal [(nx, ny, nz)] and UV [(u, v)] appends
    the position [(x, z * -1, y)] to [verts], the normal
    [(nx, nz * -1, ny)] to [normals] and the pair [(u, v)], untouched, to
    [uv]: second and third component are swapped and the new second one
    is negated, by the same rule for positions and normals. *)
Theorem C1_vertex_conversion {F : Type} `{Scalar F}
    (origo : F * F * F) (st : state F) (lineStr : string)
    (t1 t2 t3 t4 t5 t6 t7 t8 : string) (rest : list string)
    (x y z nx ny nz u v : F) :
  Py.split lineStr = "VT" :: t1 :: t2 :: t3 :: t4 :: t5 :: t6 :: t7 :: t8 :: rest ->
  float t1 = Some x -> float t2 = Some y -> float t3 = Some z ->
  float t4 = Some nx -> float t5 = Some ny -> float t6 = Some nz ->
  float t7 = Some u -> float t8 = Some v ->
  exists st',
    step origo lineStr st = Ok st' /\
    verts st' = verts st ++ [(x, neg1 z, y)] /\
    normals st' = normals st ++ [(nx, neg1 nz, ny)] /\
    uv st' = uv st ++ [(u, v)].
Proof.
  intros Hsplit H1 H2 H3 H4 H5 H6 H7 H8.
  rewrite (step_tokens _ _ _ _ _ Hsplit).
  change (dispatch origo ("VT" :: t1 :: t2 :: t3 :: t4 :: t5 :: t6 :: t7 :: t8 :: rest) "VT" st)
    with (on_VT ("VT" :: t1 :: t2 :: t3 :: t4 :: t5 :: t6 :: t7 :: t8 :: rest) st).
  unfold on_VT.
  rewrite (field_ok _ 1 t1 x), (field_ok _ 3 t3 z), (field_ok _ 2 t2 y),
          (field_ok _ 4 t4 nx), (field_ok _ 6 t6 nz), (field_ok _ 5 t5 ny),
          (field_ok _ 7 t7 u), (field_ok _ 8 t8 v)
    by (reflexivity || assumption).
  cbn [bind]. eexists. split; [reflexivity|]. cbn. auto.
Qed.

(** The line [VT 1 2 3 4 5 6 7 8] read in the initial state. *)
Lemma C1_vertex_conversion_witness :
  exists st',
    step origo0 "VT 1 2 3 4 5 6 7 8" init = Ok st' /\
    verts st' = verts init ++ [(num 1, neg1 (num 3), num 2)] /\
    normals st' = normals init ++ [(num 4, neg1 (num 6), num 5)] /\
    uv st' = uv init ++ [(num 7, num 8)].
Proof.
  apply (C1_vertex_conversion origo0 init "VT 1 2 3 4 5 6 7 8"
           "1" "2" "3" "4" "5" "6" "7" "8" []
           (num 1) (num 2) (num 3) (num 4) (num 5) (num 6) (num 7) (num 8));
    vm_compute; reflexivity.
Defined.

(** C1 as stated fails: raw position [(1, 2, 3)] is stored as [(1, -3, 2)],
    not as [(1, 3, -2)], and raw normal [(4, 5, 6)] as [(4, -6, 5)], not as
    [(4, 6, -5)]. *)
Lemma C1_vertex_conversion_counterexample :
  exists st,
    scan origo0 ["VT 1 2 3 4 5 6 7 8"] init = Ok st /\
    verts st = [(num 1, num (-3), num 2)] /\
    verts st <> [(num 1, num 3, num (-2))] /\
    normals st = [(num 4, num (-6), num 5)] /\
    normals st <> [(num 4, num 6, num (-5))] /\
    uv st = [(num 7, num 8)].
Proof.
  eexists. split; [vm_compute; reflexivity|]. cbn [verts normals uv].
  repeat split; try (vm_compute; reflexivity);
    intros E; vm_compute in E; discriminate E.
Qed.

(** ** Draw directives: the origin *)

(** C2, as the source has it.  The origin of the descriptor a [TRIS] line
    appends is chosen by the flag [trans_available], not by the depth of
    the stack: it is [origin_temp] when the flag is set and [Vector(origo)]
    otherwise.  The flag is set by every [ANIM_trans], cleared by an
    [ANIM_end] that brings [anim_nesting] to 0, left alone by an
    [ANIM_end] that does not, and by every other line. *)
Theorem C2_origin_follows_flag {F : Type} `{Scalar F}
    (origo : F * F * F) (lineStr kw : string) (args : list string)
    (st st' : state F) :
  Py.split lineStr = kw :: args ->
  step origo lineStr st = Ok st' ->
  (kw = "TRIS" ->
     exists off cnt,
       ifield (kw :: args) 1 = Ok off /\ ifield (kw :: args) 2 = Ok cnt /\
       objects st' =
         objects st ++
           [(if trans_available st then origin_temp st else mkVector origo,
             Py.slice (faces st) off (off + cnt))] /\
       trans_available st' = trans_available st) /\
  (kw = "ANIM_trans" -> trans_available st' = true) /\
  (kw = "ANIM_end" ->
     trans_available st' =
       if anim_nesting st' =? 0 then false else trans_available st) /\
  (kw <> "TRIS" -> kw <> "ANIM_trans" -> kw <> "ANIM_end" ->
     trans_available st' = trans_available st).
Proof.
  intros Hsplit Hstep. rewrite (step_tokens _ _ _ _ _ Hsplit) in Hstep.
  split; [|split; [|split]].
  - intros ->. apply on_TRIS_inv in Hstep.
    destruct Hstep as (off & cnt & H1 & H2 & ->). exists off, cnt. auto.
  - intros ->. apply on_ANIM_trans_inv in Hstep.
    destruct Hstep as (x & y & z & fr & _ & _ & _ & _ & ->). reflexivity.
  - intros ->. apply on_ANIM_end_inv in Hstep.
    destruct Hstep as (top & fr & _ & ->). reflexivity.
  - intros N1 N2 N3. unfold dispatch in Hstep.
    repeat match type of Hstep with
    | (if ?c then _ else _) = _ => destruct c eqn:?
    end;
    try (unfold on_TEXTURE, on_TEXTURE_DRAPED_NORMAL in Hstep; bind_inv Hstep;
         inversion Hstep; subst; reflexivity);
    try (exfalso;
         match goal with
         | E : (kw =? _)%string = true |- _ => apply String.eqb_eq in E; auto
         end; fail).
    + apply on_VT_inv in Hstep.
      destruct Hstep as (? & ? & ? & ? & ? & ? & ? & ? & E).
      decompose [and] E; subst; reflexivity.
    + apply on_IDX_inv in Hstep. destruct Hstep as (? & _ & ->). reflexivity.
Qed.

(** The state after [IDX 0 1 2], [ANIM_begin], [ANIM_trans 1 0 0]. *)
Definition in_block : state Qc :=
  mkState [] [] [0; 1; 2] [] (num 1, num 0, num 0) 1
          [(num 0, num 0, num 0); (num 1, num 0, num 0)] true [] [].

(** [TRIS 0 3] read in that state is placed at the running origin. *)
Lemma C2_origin_follows_flag_witness :
  scan origo0 ["IDX 0 1 2"; "ANIM_begin"; "ANIM_trans 1 0 0"] init = Ok in_block /\
  exists off cnt,
    ifield ["TRIS"; "0"; "3"] 1 = Ok off /\
    ifield ["TRIS"; "0"; "3"] 2 = Ok cnt /\
    objects
      (mkState [] [] [0; 1; 2] [] (num 1, num 0, num 0) 1
               [(num 0, num 0, num 0); (num 1, num 0, num 0)] true
               [((num 1, num 0, num 0), [0; 1; 2])] []) =
      objects in_block ++
        [(if trans_available in_block then origin_temp in_block else origo0,
          Py.slice (faces in_block) off (off + cnt))] /\
    true = trans_available in_block.
Proof.
  split; [vm_compute; reflexivity|].
  refine (proj1 (C2_origin_follows_flag origo0 "TRIS 0 3" "TRIS" ["0"; "3"]
                   in_block _ _ _) eq_refl);
    vm_compute; reflexivity.
Defined.

(** C2 as stated fails in both directions.  An [ANIM_trans] outside every
    block leaves the stack at its root, yet the next [TRIS] is placed at
    the running origin [(1, 0, 0)] instead of the base placement; and
    inside an [ANIM_begin] without [ANIM_trans] the depth is 1, yet
    [TRIS] is placed at the base placement [(5, 0, 0)] instead of the
    running origin [(0, 0, 0)]. *)
Lemma C2_origin_counterexample :
  (exists st,
     scan origo0 ["ANIM_trans 1 0 0"; "TRIS 0 0"] init = Ok st /\
     anim_nesting st = 0 /\ List.length (a_trans st) = 1%nat /\
     objects st = [((num 1, num 0, num 0), [])] /\
     (num 1, num 0, num 0) <> origo0) /\
  (exists st,
     scan (num 5, num 0, num 0) ["ANIM_begin"; "TRIS 0 0"] init = Ok st /\
     anim_nesting st = 1 /\ List.length (a_trans st) = 2%nat /\
     origin_temp st = (num 0, num 0, num 0) /\
     objects st = [((num 5, num 0, num 0), [])] /\
     (num 5, num 0, num 0) <> origin_temp st).
Proof.
  split; eexists; (split; [vm_compute; reflexivity|]);
    cbn [anim_nesting a_trans objects origin_temp];
    repeat split; try (vm_compute; reflexivity);
    intros E; vm_compute in E; discriminate E.
Qed.

(** ** The running origin and the frames *)

(** C3, on the file [ANIM_begin], [ANIM_trans 1 0 0], [ANIM_trans 1 0 0].
    The second [ANIM_trans] overwrites the top frame but adds to the
    running origin: [origin_temp] is [(2, 0, 0)] while the frames still on
    the stack sum to [(1, 0, 0)].  After the closing [ANIM_end] the stack
    holds the root frame only, which is zero, and the running origin stays
    at [(1, 0, 0)]. *)
Theorem C3_repeated_trans_drift :
  (exists st,
     scan origo0 ["ANIM_begin"; "ANIM_trans 1 0 0"; "ANIM_trans 1 0 0"] init
       = Ok st /\
     a_trans st = [(num 0, num 0, num 0); (num 1, num 0, num 0)] /\
     Vector_sum (a_trans st) = (num 1, num 0, num 0) /\
     origin_temp st = (num 2, num 0, num 0) /\
     origin_temp st <> Vector_sum (a_trans st)) /\
  (exists st,
     scan origo0
          ["ANIM_begin"; "ANIM_trans 1 0 0"; "ANIM_trans 1 0 0"; "ANIM_end"]
          init = Ok st /\
     a_trans st = [(num 0, num 0, num 0)] /\
     Vector_sum (a_trans st) = (num 0, num 0, num 0) /\
     origin_temp st = (num 1, num 0, num 0) /\
     origin_temp st <> Vector_sum (a_trans st)).
Proof.
  split; eexists; (split; [vm_compute; reflexivity|]);
    cbn [a_trans origin_temp];
    repeat split; try (vm_compute; reflexivity);
    intros E; vm_compute in E; discriminate E.
Qed.

(** ** Draw directives: the slice *)

(** C4, as the source has it.  A [TRIS] line whose offset is not negative
    and whose offset plus count exceeds the length of the index buffer
    raises nothing: the slice is cut at the end of the buffer, a descriptor
    holding the entries from [offset] on is appended to [objects], and the
    scan goes on with the next line. *)
Theorem C4_slice_is_truncated {F : Type} `{Scalar F}
    (origo : F * F * F) (st : state F) (lineStr t1 t2 : string)
    (rest more : list string) (off cnt : Z) :
  Py.split lineStr = "TRIS" :: t1 :: t2 :: rest ->
  Py.int t1 = Ok off -> Py.int t2 = Ok cnt ->
  0 <= off -> Z.of_nat (List.length (faces st)) < off + cnt ->
  exists st',
    step origo lineStr st = Ok st' /\
    objects st' =
      objects st ++
        [(if trans_available st then origin_temp st else mkVector origo,
          skipn (Z.to_nat off) (faces st))] /\
    faces st' = faces st /\
    scan origo (lineStr :: more) st = scan origo more st'.
Proof.
  intros Hsplit H1 H2 Hoff Hlen.
  assert (Hstep : step origo lineStr st =
                  on_TRIS origo ("TRIS" :: t1 :: t2 :: rest) st).
  { now rewrite (step_tokens _ _ _ _ _ Hsplit). }
  unfold on_TRIS in Hstep.
  rewrite (ifield_ok _ 1 t1 off), (ifield_ok _ 2 t2 cnt) in Hstep
    by (reflexivity || assumption).
  cbn [bind] in Hstep. rewrite PyFacts.slice_past_end in Hstep by assumption.
  eexists. split; [exact Hstep|]. cbn [objects faces].
  repeat split. cbn [scan]. now rewrite Hstep.
Qed.

(** The state after the index record [IDX10 0 1 2 3 4 5 6 7 8]. *)
Definition nine_indices : state Qc :=
  mkState [] [] [0; 1; 2; 3; 4; 5; 6; 7; 8] [] (num 0, num 0, num 0) 0
          [(num 0, num 0, num 0)] false [] [].

(** [TRIS 5 10] against nine indices. *)
Lemma C4_slice_is_truncated_witness :
  exists st',
    step origo0 "TRIS 5 10" nine_indices = Ok st' /\
    objects st' =
      objects nine_indices ++
        [(if trans_available nine_indices then origin_temp nine_indices
          else mkVector origo0,
          skipn (Z.to_nat 5) (faces nine_indices))] /\
    faces st' = faces nine_indices /\
    scan origo0 ["TRIS 5 10"; "TRIS 0 3"] nine_indices =
    scan origo0 ["TRIS 0 3"] st'.
Proof.
  apply (C4_slice_is_truncated origo0 nine_indices "TRIS 5 10" "5" "10" []
           ["TRIS 0 3"] 5 10);
    vm_compute; solve [reflexivity | discriminate].
Defined.

(** C4 as stated fails: [TRIS 5 10] against a buffer of nine indices
    raises nothing and appends the descriptor [[5; 6; 7; 8]]; the mesh is
    created from it. *)
Lemma C4_range_counterexample :
  scan origo0 ["IDX10 0 1 2 3 4 5 6 7 8"] init = Ok nine_indices /\
  (exists st,
     scan origo0 ["IDX10 0 1 2 3 4 5 6 7 8"; "TRIS 5 10"] init = Ok st /\
     objects st = [(origo0, [5; 6; 7; 8])]) /\
  run ["IDX10 0 1 2 3 4 5 6 7 8"; "TRIS 5 10"] origo0 =
    Ok [mkMesh 0%nat origo0 [] [(5, 6, 7)] [] []].
Proof.
  split; [vm_compute; reflexivity|].
  split; [eexists; split; vm_compute; reflexivity|].
  vm_compute; reflexivity.
Qed.

(** ** Grouping into triangles *)

Section Meshes.
Context {F : Type} `{Scalar F}.

Lemma createMeshes_length (st : state F) (c : nat)
      (objs : list (Vector F * list Z)) :
  List.length (createMeshes st c objs) = List.length objs.
Proof.
  revert c. induction objs as [|[orig obj] objs IH]; intros c;
    cbn [createMeshes List.length]; auto.
Qed.

Lemma createMeshes_nth (st : state F) (objs : list (Vector F * list Z)) :
  forall (c k : nat) (orig : Vector F) (obj : list Z),
    nth_error objs k = Some (orig, obj) ->
    nth_error (createMeshes st c objs) k =
      Some (mkMesh (c + k) orig (verts st) (Py.triplets obj) (uv st)
                   (normals st)).
Proof.
  induction objs as [|[o1 l1] objs IH]; intros c k orig obj Hk.
  - destruct k; discriminate.
  - destruct k as [|k]; cbn [createMeshes nth_error] in *.
    + inversion Hk; subst. now rewrite Nat.add_0_r.
    + rewrite (IH (S c) k orig obj Hk). do 2 f_equal. lia.
Qed.

Lemma createMeshes_In (st : state F) (objs : list (Vector F * list Z)) :
  forall (c : nat) (m : mesh F),
    In m (createMeshes st c objs) ->
    exists orig obj,
      In (orig, obj) objs /\
      mesh_origin m = orig /\ mesh_faces m = Py.triplets obj /\
      mesh_verts m = verts st /\ mesh_uvs m = uv st /\
      mesh_normals m = normals st.
Proof.
  induction objs as [|[o1 l1] objs IH]; intros c m Hin; [destruct Hin|].
  cbn [createMeshes] in Hin. destruct Hin as [<-|Hin].
  - exists o1, l1. cbn. auto 10.
  - destruct (IH _ _ Hin) as (orig & obj & Ho & Hrest).
    exists orig, obj. split; [now right|exact Hrest].
Qed.

Lemma triplets_In {A : Type} (l : list A) (a b c : A) :
  In (a, b, c) (Py.triplets l) -> In a l /\ In b l /\ In c l.
Proof.
  induction l as [| x | x y | x y z r IH] using PyFacts.triplets_ind3;
    try (intros []; fail).
  cbn [Py.triplets]. intros [E|Hin].
  - inversion E; subst. cbn. intuition.
  - destruct (IH Hin) as (Ha & Hb & Hc). cbn. intuition.
Qed.

End Meshes.

(** ** The depth of the stack *)

(** C6, as the source has it.  At every point of a scan the nesting
    counter is at least -1 and the frame list is one longer than the
    counter.  An [ANIM_end] read while a frame is left, the root frame
    included, succeeds: it pops that frame and lowers the counter by one,
    down to -1 at the root.  Only an [ANIM_end] read when no frame is left
    aborts the scan, with [IndexError]. *)
Theorem C6_root_frame_can_be_popped {F : Type} `{Scalar F}
    (origo : F * F * F) (lines : list string) (st : state F) :
  scan origo lines init = Ok st ->
  -1 <= anim_nesting st /\
  Z.of_nat (List.length (a_trans st)) = anim_nesting st + 1 /\
  (anim_nesting st = -1 ->
   a_trans st = [] /\ step origo "ANIM_end" st = Raise IndexError) /\
  (0 <= anim_nesting st ->
   exists st' top,
     step origo "ANIM_end" st = Ok st' /\
     anim_nesting st' = anim_nesting st - 1 /\
     a_trans st = a_trans st' ++ [top] /\
     origin_temp st' = Vector_sub (origin_temp st) top).
Proof.
  intros Hscan.
  assert (Hshape : stack_shape st)
    by (eapply stack_shape_scan; [exact Hscan | exact stack_shape_init]).
  unfold stack_shape in Hshape.
  assert (Hstep : step origo "ANIM_end" st = on_ANIM_end st)
    by exact (step_tokens origo "ANIM_end" "ANIM_end" [] st eq_refl).
  split; [lia|]. split; [exact Hshape|]. split.
  - intros Hneg. rewrite Hneg in Hshape.
    destruct (a_trans st) as [|v l] eqn:Ea; [|cbn in Hshape; lia].
    split; [reflexivity|]. rewrite Hstep. unfold on_ANIM_end.
    now rewrite Ea.
  - intros Hpos.
    destruct (rev (a_trans st)) as [|top fr] eqn:Er.
    + apply (f_equal (@List.length _)) in Er. rewrite length_rev in Er.
      cbn in Er. lia.
    + apply (f_equal (@rev _)) in Er. rewrite rev_involutive in Er.
      cbn [rev] in Er. rewrite Hstep. unfold on_ANIM_end.
      rewrite Er, PyFacts.pop_app. cbn [bind].
      eexists. exists top. split; [reflexivity|]. cbn. auto.
Qed.

(** The state after the file [ANIM_end]: no frame is left. *)
Definition root_popped : state Qc :=
  mkState [] [] [] [] (num 0, num 0, num 0) (-1) [] false [] [].

Lemma C6_root_frame_can_be_popped_witness :
  -1 <= anim_nesting root_popped /\
  Z.of_nat (List.length (a_trans root_popped)) = anim_nesting root_popped + 1 /\
  (anim_nesting root_popped = -1 ->
   a_trans root_popped = [] /\
   step origo0 "ANIM_end" root_popped = Raise IndexError) /\
  (0 <= anim_nesting root_popped ->
   exists st' top,
     step origo0 "ANIM_end" root_popped = Ok st' /\
     anim_nesting st' = anim_nesting root_popped - 1 /\
     a_trans root_popped = a_trans st' ++ [top] /\
     origin_temp st' = Vector_sub (origin_temp root_popped) top).
Proof.
  apply (C6_root_frame_can_be_popped origo0 ["ANIM_end"] root_popped).
  vm_compute. reflexivity.
Defined.

(** C6 as stated fails: an [ANIM_end] with no open block raises nothing;
    the scan and [run] complete, and the nesting counter is -1 afterwards.
    A second [ANIM_end] is what raises, and it raises [IndexError]. *)
Lemma C6_underflow_counterexample :
  (exists st,
     scan origo0 ["ANIM_end"] init = Ok st /\
     anim_nesting st = -1 /\ a_trans st = []) /\
  run ["ANIM_end"] origo0 = Ok [] /\
  run ["ANIM_end"; "ANIM_end"] origo0 = Raise IndexError.
Proof.
  split; [eexists; split; [vm_compute; reflexivity|split; reflexivity]|].
  split; vm_compute; reflexivity.
Qed.

(** ** The buffers after a completed scan *)

(** C7, as the source has it.  When [run] completes, every mesh is created
    from the same three vertex buffers, which have equal lengths, and every
    index of every triangle is an entry of the index buffer, that is, an
    integer read from an [IDX] or [IDX10] record.  Nothing relates it to
    the number of vertices. *)
Theorem C7_buffers_after_run {F : Type} `{Scalar F}
    (lines : list string) (origo : F * F * F) (meshes : list (mesh F)) :
  run lines origo = Ok meshes ->
  exists st,
    scan origo lines init = Ok st /\
    List.length (verts st) = List.length (normals st) /\
    List.length (normals st) = List.length (uv st) /\
    forall m, In m meshes ->
      mesh_verts m = verts st /\ mesh_normals m = normals st /\
      mesh_uvs m = uv st /\
      forall a b c, In (a, b, c) (mesh_faces m) ->
        In a (faces st) /\ In b (faces st) /\ In c (faces st).
Proof.
  unfold run. intros Hrun.
  destruct (scan origo lines init) as [st|] eqn:Hscan; [|discriminate].
  cbn [bind] in Hrun. inversion Hrun; subst meshes; clear Hrun.
  exists st. split; [reflexivity|].
  assert (Hal : buffers_aligned st).
  { refine (scan_preserves buffers_aligned origo _ _ _ _ Hscan _).
    - intros l s s'. apply buffers_aligned_step.
    - split; reflexivity. }
  assert (Hof : objects_from_faces st).
  { refine (scan_preserves objects_from_faces origo _ _ _ _ Hscan _).
    - intros l s s'. apply objects_from_faces_step.
    - intros ? ? ? []. }
  destruct Hal as [Hn Hu].
  split; [exact Hn|]. split; [now rewrite <- Hn|].
  intros m Hm. apply createMeshes_In in Hm.
  destruct Hm as (orig & obj & Hin & _ & Hf & Hv & Huv & Hnm).
  repeat (split; [assumption|]).
  intros a b c Habc. rewrite Hf in Habc. apply triplets_In in Habc.
  destruct Habc as (Ha & Hb & Hc). repeat split; eapply Hof; eassumption.
Qed.

(** The file [VT 1 2 3 4 5 6 7 8], [IDX 0 0 0], [TRIS 0 3]. *)
Lemma C7_buffers_after_run_witness :
  exists st,
    scan origo0 ["VT 1 2 3 4 5 6 7 8"; "IDX 0 0 0"; "TRIS 0 3"] init = Ok st /\
    List.length (verts st) = List.length (normals st) /\
    List.length (normals st) = List.length (uv st) /\
    forall m,
      In m [mkMesh 0%nat origo0 [(num 1, num (-3), num 2)] [(0, 0, 0)]
                   [(num 7, num 8)] [(num 4, num (-6), num 5)]] ->
      mesh_verts m = verts st /\ mesh_normals m = normals st /\
      mesh_uvs m = uv st /\
      forall a b c, In (a, b, c) (mesh_faces m) ->
        In a (faces st) /\ In b (faces st) /\ In c (faces st).
Proof.
  apply (C7_buffers_after_run
           ["VT 1 2 3 4 5 6 7 8"; "IDX 0 0 0"; "TRIS 0 3"] origo0).
  vm_compute. reflexivity.
Defined.

(** C7 as stated fails in its second half: with no vertex at all, the file
    [IDX 7 7 7], [TRIS 0 3] completes and its mesh has the triangle
    [(7, 7, 7)], while the position array is empty. *)
Lemma C7_index_bound_counterexample :
  run ["IDX 7 7 7"; "TRIS 0 3"] origo0 =
    Ok [mkMesh 0%nat origo0 [] [(7, 7, 7)] [] []] /\
  ~ (7 < Z.of_nat (List.length (@nil (Qc * Qc * Qc)))).
Proof.
  split; [vm_compute; reflexivity|]. cbn. lia.
Qed.

(** ** Slices inside the buffer *)

(** C8.  The file whose index buffer is [[0; ...; 8]] followed by
    [TRIS 3 6] yields one mesh with the triangles [(3, 4, 5)] and
    [(6, 7, 8)].  In general, for a [TRIS] line whose range lies inside
    the index buffer, the descriptor holds [count] entries, and its [i]-th
    entry is the entry of the buffer at position [offset + i]. *)
Theorem C8_slice_in_buffer_order {F : Type} `{Scalar F} (origo : F * F * F) :
  run ["IDX10 0 1 2 3 4 5 6 7 8"; "TRIS 3 6"] origo =
    Ok [mkMesh 0%nat (mkVector origo) [] [(3, 4, 5); (6, 7, 8)] [] []] /\
  forall (st : state F) (lineStr t1 t2 : string) (rest : list string)
         (off cnt : Z),
    Py.split lineStr = "TRIS" :: t1 :: t2 :: rest ->
    Py.int t1 = Ok off -> Py.int t2 = Ok cnt ->
    0 <= off -> 0 <= cnt -> off + cnt <= Z.of_nat (List.length (faces st)) ->
    exists st' orig obj,
      step origo lineStr st = Ok st' /\
      objects st' = objects st ++ [(orig, obj)] /\
      obj = firstn (Z.to_nat cnt) (skipn (Z.to_nat off) (faces st)) /\
      List.length obj = Z.to_nat cnt /\
      forall i, (i < Z.to_nat cnt)%nat ->
        nth_error obj i = nth_error (faces st) (Z.to_nat off + i).
Proof.
  split; [reflexivity|].
  intros st lineStr t1 t2 rest off cnt Hsplit H1 H2 Hoff Hcnt Hlen.
  rewrite (step_tokens _ _ _ _ _ Hsplit).
  change (dispatch origo ("TRIS" :: t1 :: t2 :: rest) "TRIS" st)
    with (on_TRIS origo ("TRIS" :: t1 :: t2 :: rest) st).
  unfold on_TRIS.
  rewrite (ifield_ok _ 1 t1 off), (ifield_ok _ 2 t2 cnt)
    by (reflexivity || assumption).
  cbn [bind]. rewrite PyFacts.slice_inside by assumption.
  do 3 eexists. split; [reflexivity|]. cbn [objects faces].
  split; [reflexivity|]. split; [reflexivity|]. split.
  - rewrite length_firstn, length_skipn. lia.
  - intros i Hi. rewrite nth_error_firstn.
    apply Nat.ltb_lt in Hi. rewrite Hi. apply nth_error_skipn.
Qed.

(** [TRIS 3 6] against nine indices. *)
Lemma C8_slice_in_buffer_order_witness :
  exists st' orig obj,
    step origo0 "TRIS 3 6" nine_indices = Ok st' /\
    objects st' = objects nine_indices ++ [(orig, obj)] /\
    obj = firstn (Z.to_nat 6) (skipn (Z.to_nat 3) (faces nine_indices)) /\
    List.length obj = Z.to_nat 6 /\
    forall i, (i < Z.to_nat 6)%nat ->
      nth_error obj i = nth_error (faces nine_indices) (Z.to_nat 3 + i).
Proof.
  apply (proj2 (C8_slice_in_buffer_order origo0)
           nine_indices "TRIS 3 6" "3" "6" [] 3 6);
    vm_compute; solve [reflexivity | discriminate].
Defined.

(** ** Matched blocks *)

Section Exact.
Context {F : Type} `{ExactScalar F}.







End Exact.

(** C9, as the source has it.  Wherever the scan stands, the block
    [ANIM_begin], [ANIM_trans x y z], [ANIM_end] is read without an
    exception and leaves the frames and the nesting counter as they were
    before the [ANIM_begin].  The running origin becomes [(o + v) - v],
    computed with the [+] and [-] of [Vector], where [o] is its value
    before the block and [v] the translation of the block: it is [o]
    again whenever that sum and difference lose nothing to rounding. *)
Theorem C9_matched_block_round_trip {F : Type} `{Scalar F}
    (origo : F * F * F) (pre : list string) (st : state F)
    (lineStr tx ty tz : string) (rest : list string) (x y z : F) :
  scan origo pre init = Ok st ->
  Py.split lineStr = "ANIM_trans" :: tx :: ty :: tz :: rest ->
  float tx = Some x -> float ty = Some y -> float tz = Some z ->
  exists st',
    scan origo ["ANIM_begin"; lineStr; "ANIM_end"] st = Ok st' /\
    a_trans st' = a_trans st /\
    anim_nesting st' = anim_nesting st /\
    origin_temp st' =
      Vector_sub (Vector_add (origin_temp st) (mkVector (x, neg1 z, y)))
                 (mkVector (x, neg1 z, y)) /\
    (Vector_sub (Vector_add (origin_temp st) (mkVector (x, neg1 z, y)))
                (mkVector (x, neg1 z, y)) = origin_temp st ->
     origin_temp st' = origin_temp st).
Proof.
  intros Hscan Hsplit Hx Hy Hz.
  assert (Hshape : stack_shape st)
    by (eapply stack_shape_scan; [exact Hscan | exact stack_shape_init]).
  unfold stack_shape in Hshape.
  cbn [scan].
  rewrite (step_tokens origo "ANIM_begin" "ANIM_begin" [] st eq_refl).
  change (dispatch origo ["ANIM_begin"] "ANIM_begin" st)
    with (on_ANIM_begin st).
  unfold on_ANIM_begin. cbn [bind].
  rewrite (step_tokens _ _ _ _ _ Hsplit).
  match goal with
  | |- context [dispatch origo ?l "ANIM_trans" ?s] =>
      change (dispatch origo l "ANIM_trans" s) with (on_ANIM_trans l s)
  end.
  unfold on_ANIM_trans.
  rewrite (field_ok _ 1 tx x), (field_ok _ 3 tz z), (field_ok _ 2 ty y)
    by (reflexivity || assumption).
  cbn [bind a_trans anim_nesting].
  replace (anim_nesting st + 1) with (Z.of_nat (List.length (a_trans st)))
    by lia.
  rewrite PyFacts.setitem_last. cbn [bind].
  match goal with
  | |- context [step origo "ANIM_end" ?s] =>
      rewrite (step_tokens origo "ANIM_end" "ANIM_end" [] s eq_refl);
      change (dispatch origo ["ANIM_end"] "ANIM_end" s) with (on_ANIM_end s)
  end.
  unfold on_ANIM_end. cbn [a_trans]. rewrite PyFacts.pop_app. cbn [bind].
  eexists. split; [reflexivity|].
  cbn [origin_temp a_trans anim_nesting].
  split; [reflexivity|]. split; [lia|]. split; [reflexivity|].
  intros Hexact. exact Hexact.
Qed.

(** The placement [execute] passes to [run], as floats. *)
Definition origo_ieee
  : SpecFloat.spec_float * SpecFloat.spec_float * SpecFloat.spec_float :=
  (SpecFloat.S754_zero false, SpecFloat.S754_zero false,
   SpecFloat.S754_zero false).

(** The block [ANIM_begin], [ANIM_trans 1 0 0], [ANIM_end] at the start of
    a file, in binary32: [(0 + 1) - 1] is exact and the origin is back at
    [(0, 0, 0)]. *)
Lemma C9_matched_block_round_trip_witness :
  exists st',
    scan origo_ieee ["ANIM_begin"; "ANIM_trans 1 0 0"; "ANIM_end"] init
      = Ok st' /\
    a_trans st' = a_trans (@init SpecFloat.spec_float _) /\
    anim_nesting st' = anim_nesting (@init SpecFloat.spec_float _) /\
    origin_temp st' =
      Vector_sub
        (Vector_add (origin_temp init)
           (mkVector (IEEE.of_decimal false 1 0,
                      neg1 (SpecFloat.S754_zero false),
                      SpecFloat.S754_zero false)))
        (mkVector (IEEE.of_decimal false 1 0,
                   neg1 (SpecFloat.S754_zero false),
                   SpecFloat.S754_zero false)) /\
    (Vector_sub
        (Vector_add (origin_temp init)
           (mkVector (IEEE.of_decimal false 1 0,
                      neg1 (SpecFloat.S754_zero false),
                      SpecFloat.S754_zero false)))
        (mkVector (IEEE.of_decimal false 1 0,
                   neg1 (SpecFloat.S754_zero false),
                   SpecFloat.S754_zero false))
      = origin_temp (@init SpecFloat.spec_float _) ->
     origin_temp st' = origin_temp (@init SpecFloat.spec_float _)).
Proof.
  apply (C9_matched_block_round_trip origo_ieee [] init
           "ANIM_trans 1 0 0" "1" "0" "0" []
           (IEEE.of_decimal false 1 0) (SpecFloat.S754_zero false)
           (SpecFloat.S754_zero false));
    vm_compute; reflexivity.
Defined.

(** C9 as stated fails.  After [ANIM_trans 0.1 0 0] the running origin is
    the binary32 nearest to 0.1, [13421773 * 2 ^ -27]; the block
    [ANIM_begin], [ANIM_trans 1 0 0], [ANIM_end] leaves it at
    [13421776 * 2 ^ -27], about 0.10000002384, because the sum 1.1 is
    rounded to 24 bits before 1 is taken away again. *)
Lemma C9_rounding_counterexample :
  exists st st',
    scan origo_ieee ["ANIM_trans 0.1 0 0"] init = Ok st /\
    scan origo_ieee ["ANIM_begin"; "ANIM_trans 1 0 0"; "ANIM_end"] st = Ok st' /\
    origin_temp st =
      (SpecFloat.S754_finite false 13421773 (-27),
       SpecFloat.S754_zero false, SpecFloat.S754_zero false) /\
    origin_temp st' =
      (SpecFloat.S754_finite false 13421776 (-27),
       SpecFloat.S754_zero false, SpecFloat.S754_zero false) /\
    origin_temp st' <> origin_temp st.
Proof.
  eexists. eexists.
  split; [vm_compute; reflexivity|].
  split; [vm_compute; reflexivity|].
  cbn [origin_temp].
  split; [reflexivity|]. split; [reflexivity|].
  intros E. discriminate E.
Qed.

(** The floats of the source are not an [ExactScalar]. *)
Lemma IEEE_not_exact : ~ ExactScalar SpecFloat.spec_float.
Proof.
  intros [_ _ Hsub].
  specialize (Hsub (SpecFloat.S754_finite false 13421773 (-27))
                   (SpecFloat.S754_finite false 8388608 (-23))).
  vm_compute in Hsub. discriminate Hsub.
Qed.

(** ** Descriptors are not touched again *)

(** C10.  The descriptor of a [TRIS] line holds the slice of the index
    buffer as it stands when the line is read.  Whatever follows the line,
    index records included, if [run] completes then the descriptor is
    still at its place in [objects] with that slice, and the mesh created
    for it has the triangles of that slice. *)
Theorem C10_slice_is_a_snapshot {F : Type} `{Scalar F}
    (origo : F * F * F) (pre post : list string) (st : state F)
    (lineStr t1 t2 : string) (rest : list string) (off cnt : Z)
    (meshes : list (mesh F)) :
  scan origo pre init = Ok st ->
  Py.split lineStr = "TRIS" :: t1 :: t2 :: rest ->
  Py.int t1 = Ok off -> Py.int t2 = Ok cnt ->
  run (pre ++ lineStr :: post) origo = Ok meshes ->
  exists st2 m,
    scan origo (pre ++ lineStr :: post) init = Ok st2 /\
    nth_error (objects st2) (List.length (objects st)) =
      Some (if trans_available st then origin_temp st else mkVector origo,
            Py.slice (faces st) off (off + cnt)) /\
    nth_error meshes (List.length (objects st)) = Some m /\
    mesh_faces m = Py.triplets (Py.slice (faces st) off (off + cnt)).
Proof.
  intros Hpre Hsplit H1 H2 Hrun.
  unfold run in Hrun. rewrite scan_app, Hpre in Hrun. cbn [bind scan] in Hrun.
  rewrite (step_tokens _ _ _ _ _ Hsplit) in Hrun.
  change (dispatch origo ("TRIS" :: t1 :: t2 :: rest) "TRIS" st)
    with (on_TRIS origo ("TRIS" :: t1 :: t2 :: rest) st) in Hrun.
  unfold on_TRIS in Hrun.
  rewrite (ifield_ok _ 1 t1 off), (ifield_ok _ 2 t2 cnt) in Hrun
    by (reflexivity || assumption).
  cbn [bind] in Hrun.
  match type of Hrun with
  | context [scan origo post ?s] =>
      set (st1 := s) in *; destruct (scan origo post st1) as [st2|] eqn:Hpost
  end; [|discriminate].
  cbn [bind] in Hrun. inversion Hrun; subst meshes; clear Hrun.
  destruct (objects_extend_scan _ _ _ _ Hpost) as [more Hmore].
  assert (Hnth : nth_error (objects st2) (List.length (objects st)) =
                 Some (if trans_available st then origin_temp st else mkVector origo,
                       Py.slice (faces st) off (off + cnt))).
  { rewrite Hmore. subst st1. cbn [objects].
    rewrite <- app_assoc. rewrite nth_error_app2 by lia.
    now rewrite Nat.sub_diag. }
  exists st2. eexists. split.
  - rewrite scan_app, Hpre. cbn [bind scan].
    rewrite (step_tokens _ _ _ _ _ Hsplit).
    change (dispatch origo ("TRIS" :: t1 :: t2 :: rest) "TRIS" st)
      with (on_TRIS origo ("TRIS" :: t1 :: t2 :: rest) st).
    unfold on_TRIS.
    rewrite (ifield_ok _ 1 t1 off), (ifield_ok _ 2 t2 cnt)
      by (reflexivity || assumption).
    cbn [bind]. exact Hpost.
  - split; [exact Hnth|]. split.
    + apply createMeshes_nth. exact Hnth.
    + reflexivity.
Qed.

(** [TRIS 0 6] read when the buffer holds three indices, three more being
    appended afterwards. *)
Lemma C10_slice_is_a_snapshot_witness :
  exists st2 m,
    scan origo0 (["IDX 0 1 2"] ++ "TRIS 0 6" :: ["IDX 3 4 5"]) init = Ok st2 /\
    nth_error (objects st2)
      (List.length
         (objects (mkState [] [] [0; 1; 2] [] (num 0, num 0, num 0) 0
                           [(num 0, num 0, num 0)] false [] []))) =
      Some (mkVector origo0, Py.slice [0; 1; 2] 0 (0 + 6)) /\
    nth_error [mkMesh 0%nat origo0 [] [(0, 1, 2)] [] []]
      (List.length
         (objects (mkState [] [] [0; 1; 2] [] (num 0, num 0, num 0) 0
                           [(num 0, num 0, num 0)] false [] []))) = Some m /\
    mesh_faces m = Py.triplets (Py.slice [0; 1; 2] 0 (0 + 6)).
Proof.
  apply (C10_slice_is_a_snapshot origo0 ["IDX 0 1 2"] ["IDX 3 4 5"]
           (mkState [] [] [0; 1; 2] [] (num 0, num 0, num 0) 0
                    [(num 0, num 0, num 0)] false [] [])
           "TRIS 0 6" "0" "6" [] 0 6);
    vm_compute; reflexivity.
Defined.

(** * Beyond the draw directives: the rest of [run], [createMeshFromData]
      and [execute] *)

(** ** The loop body as rules *)

(** The keywords the loop body compares [line[0]] with. *)
Definition known_keywords : list string :=
  ["TEXTURE"; "TEXTURE_DRAPED"; "TEXTURE_LIT"; "TEXTURE_NORMAL";
   "TEXTURE_DRAPED_NORMAL"; "VT"; "IDX10"; "IDX";
   "ANIM_begin"; "ANIM_trans"; "ANIM_end"; "TRIS"].

(** [line[0]], when the line is not blank. *)
Definition keyword (lineStr : string) : option string :=
  hd_error (Py.split lineStr).

Definition has_keyword (kw lineStr : string) : bool :=
  match keyword lineStr with
  | Some k => (k =? kw)%string
  | None => false
  end.

(** How many lines start with [kw]. *)
Definition count_keyword (kw : string) (lines : list string) : nat :=
  List.length (filter (has_keyword kw) lines).

Section Rules.
Context {F : Type} `{Scalar F}.

(** What a line that raises nothing does, by the tokens of the line. *)
Inductive line_effect (origo : F * F * F)
  : list string -> state F -> state F -> Prop :=
| effect_blank (st : state F) :
    line_effect origo [] st st
| effect_texture (kw : string) (args : list string) (name : string)
                 (st : state F) :
    In kw ["TEXTURE"; "TEXTURE_DRAPED"; "TEXTURE_LIT"; "TEXTURE_NORMAL"] ->
    nth_error (kw :: args) 1 = Some name ->
    line_effect origo (kw :: args) st (loadTexture name st)
| effect_draped_normal (args : list string) (ratio name : string)
                       (st : state F) :
    nth_error ("TEXTURE_DRAPED_NORMAL" :: args) 1 = Some ratio ->
    nth_error ("TEXTURE_DRAPED_NORMAL" :: args) 2 = Some name ->
    line_effect origo ("TEXTURE_DRAPED_NORMAL" :: args) st (loadTexture name st)
| effect_VT (args : list string) (st st' : state F) :
    on_VT ("VT" :: args) st = Ok st' ->
    line_effect origo ("VT" :: args) st st'
| effect_IDX (kw : string) (args : list string) (st st' : state F) :
    In kw ["IDX10"; "IDX"] ->
    on_IDX (kw :: args) st = Ok st' ->
    line_effect origo (kw :: args) st st'
| effect_ANIM_begin (args : list string) (st st' : state F) :
    on_ANIM_begin st = Ok st' ->
    line_effect origo ("ANIM_begin" :: args) st st'
| effect_ANIM_trans (args : list string) (st st' : state F) :
    on_ANIM_trans ("ANIM_trans" :: args) st = Ok st' ->
    line_effect origo ("ANIM_trans" :: args) st st'
| effect_ANIM_end (args : list string) (st st' : state F) :
    on_ANIM_end st = Ok st' ->
    line_effect origo ("ANIM_end" :: args) st st'
| effect_TRIS (args : list string) (st st' : state F) :
    on_TRIS origo ("TRIS" :: args) st = Ok st' ->
    line_effect origo ("TRIS" :: args) st st'
| effect_other (kw : string) (args : list string) (st : state F) :
    existsb (String.eqb kw) known_keywords = false ->
    line_effect origo (kw :: args) st st.

Lemma step_effect (origo : F * F * F) (lineStr : string) (st st' : state F) :
  step origo lineStr st = Ok st' ->
  line_effect origo (Py.split lineStr) st st'.
Proof.
  intros Hstep. rewrite step_dispatch in Hstep.
  destruct (Py.split lineStr) as [|kw args].
  { inversion Hstep; subst. constructor. }
  unfold dispatch in Hstep.
  repeat match type of Hstep with
  | (if ?c then _ else _) = _ => destruct c eqn:?
  end;
  repeat match goal with
  | E : (_ || _) = true |- _ => apply orb_true_iff in E; destruct E as [E|E]
  | E : (_ || _) = false |- _ => apply orb_false_elim in E; destruct E
  | E : (kw =? _)%string = true |- _ => apply String.eqb_eq in E; subst kw
  end;
  try (unfold on_TEXTURE in Hstep; bind_inv Hstep; inversion Hstep; subst;
       match goal with
       | E : Py.getitem _ 1 = Ok _ |- _ =>
           unfold Py.getitem in E;
           destruct (nth_error _ 1) eqn:En; inversion E; subst
       end;
       eapply effect_texture; [cbn; tauto | exact En]);
  try (constructor; assumption; fail);
  try (eapply effect_IDX; [cbn; tauto | assumption]).
  - unfold on_TEXTURE_DRAPED_NORMAL in Hstep. bind_inv Hstep.
    inversion Hstep; subst.
    unfold Py.getitem in *.
    destruct (nth_error _ 1) eqn:E1; [|discriminate].
    destruct (nth_error _ 2) eqn:E2; [|discriminate].
    repeat match goal with E : Ok _ = Ok _ |- _ => inversion E; subst; clear E end.
    eapply effect_draped_normal; eassumption.
  - inversion Hstep; subst. apply effect_other.
    unfold known_keywords. cbn [existsb].
    repeat match goal with
    | E : (kw =? _)%string = false |- _ => rewrite E; clear E
    end.
    reflexivity.
Qed.

End Rules.

(** ** Blank lines, unknown keywords, malformed records *)

Section Malformed.
Context {F : Type} `{Scalar F}.

Definition is_float (tok : string) : bool :=
  match float tok with
  | Some _ => true
  | None => false
  end.

Definition is_int (tok : string) : bool :=
  match Py.int tok with
  | Ok _ => true
  | Raise _ => false
  end.

(** For the keywords whose handler indexes [line]: the number of fields it
    reads after the keyword, and the test a field must pass to be
    converted ([float] for [VT] and [ANIM_trans], [int] for [TRIS], none
    for the texture names). *)
Definition record_fields (kw : string) : option (nat * (string -> bool)) :=
  if existsb (String.eqb kw)
             ["TEXTURE"; "TEXTURE_DRAPED"; "TEXTURE_LIT"; "TEXTURE_NORMAL"]
  then Some (1%nat, fun _ => true)
  else if (kw =? "TEXTURE_DRAPED_NORMAL")%string then Some (2%nat, fun _ => true)
  else if (kw =? "VT")%string then Some (8%nat, is_float)
  else if (kw =? "ANIM_trans")%string then Some (3%nat, is_float)
  else if (kw =? "TRIS")%string then Some (2%nat, is_int)
  else None.

Lemma split_blank (s : string) :
  forallb Py.isspace (list_ascii_of_string s) = true -> Py.split s = [].
Proof.
  unfold Py.split. induction s as [|c r IH]; [reflexivity|].
  cbn [list_ascii_of_string forallb Py.split_from].
  intros Hb. apply andb_true_iff in Hb. destruct Hb as [Hc Hr].
  rewrite Hc. auto.
Qed.

Lemma field_spec (line : list string) (k : nat) :
  field line k =
  match nth_error line k with
  | None => Raise IndexError
  | Some tok =>
      match float tok with
      | Some x => Ok x
      | None => Raise ValueError
      end
  end.
Proof. unfold field, Py.getitem. now destruct (nth_error line k). Qed.

Lemma ifield_spec (line : list string) (k : nat) :
  ifield line k =
  match nth_error line k with
  | None => Raise IndexError
  | Some tok => Py.int tok
  end.
Proof. unfold ifield, Py.getitem. now destruct (nth_error line k). Qed.

Lemma int_not_IndexError (tok : string) : Py.int tok <> Raise IndexError.
Proof.
  unfold Py.int. destruct (Py.sign _) as [sg r].
  destruct (Py.digitpart r) as [[ds [|c rest]]|]; discriminate.
Qed.

Lemma is_int_false (tok : string) :
  is_int tok = false -> Py.int tok = Raise ValueError.
Proof.
  unfold is_int. destruct (Py.int tok) as [n|[]] eqn:E; try discriminate.
  - now destruct (int_not_IndexError tok).
  - reflexivity.
Qed.

End Malformed.

(** Rewrites the conversions of the fields that are known to succeed or
    to fail, in the order the handler evaluates them. *)
Ltac eval_fields :=
  repeat (cbn [bind nth_error];
          match goal with
          | E : float ?t = _ |- context [float ?t] => rewrite E
          | E : Py.int ?t = _ |- context [Py.int ?t] => rewrite E
          end);
  cbn [bind nth_error].

(** Splits [forallb ok [t1; ...; tn] = true] into one fact per token. *)
Ltac split_forallb H :=
  cbn [forallb firstn] in H;
  repeat match type of H with
  | (_ && _) = true =>
      let Hh := fresh "Hok" in
      apply andb_true_iff in H; destruct H as [Hh H]
  end.

(** X1.  A line made of blanks only (spaces, tabs, the line end) is
    skipped: the state is unchanged and nothing is raised. *)
Theorem X1_blank_line_is_skipped {F : Type} `{Scalar F}
    (origo : F * F * F) (lineStr : string) (st : state F) :
  forallb Py.isspace (list_ascii_of_string lineStr) = true ->
  step origo lineStr st = Ok st.
Proof.
  intros Hb. rewrite step_dispatch. now rewrite (split_blank _ Hb).
Qed.

Lemma X1_blank_line_is_skipped_witness :
  step origo0 (String " " (String (ascii_of_nat 9) (String (ascii_of_nat 10) EmptyString)))
       in_block = Ok in_block.
Proof.
  apply (X1_blank_line_is_skipped origo0). reflexivity.
Defined.

(** X2.  A line whose first token is none of the twelve keywords, compared
    case-sensitively, is ignored, whatever follows the token. *)
Theorem X2_unknown_keyword_is_ignored {F : Type} `{Scalar F}
    (origo : F * F * F) (lineStr kw : string) (args : list string)
    (st : state F) :
  Py.split lineStr = kw :: args ->
  existsb (String.eqb kw) known_keywords = false ->
  step origo lineStr st = Ok st.
Proof.
  intros Hsplit Hno. rewrite (step_tokens _ _ _ _ _ Hsplit).
  unfold known_keywords in Hno. cbn [existsb] in Hno.
  repeat match type of Hno with
  | (_ || _) = false =>
      let E := fresh "E" in
      apply orb_false_elim in Hno; destruct Hno as [E Hno]
  end.
  unfold dispatch.
  repeat match goal with
  | E : (kw =? _)%string = false |- _ => rewrite E; clear E
  end.
  reflexivity.
Qed.

Lemma X2_unknown_keyword_is_ignored_witness :
  step origo0 "vt 1 2 3 4 5 6 7 8" in_block = Ok in_block /\
  step origo0 "ATTR_LOD 0 1000" in_block = Ok in_block.
Proof.
  split.
  - apply (X2_unknown_keyword_is_ignored origo0 _ "vt"
             ["1"; "2"; "3"; "4"; "5"; "6"; "7"; "8"]); reflexivity.
  - apply (X2_unknown_keyword_is_ignored origo0 _ "ATTR_LOD" ["0"; "1000"]);
      reflexivity.
Defined.

(** Turns the facts [is_float t = true] and [is_int t = true] into the
    values of the conversions. *)
Ltac use_ok :=
  repeat match goal with
  | Hk : is_float ?t = true |- _ =>
      unfold is_float in Hk; destruct (float t) eqn:?;
      [clear Hk | discriminate Hk]
  | Hk : is_int ?t = true |- _ =>
      unfold is_int in Hk; destruct (Py.int t) eqn:?;
      [clear Hk | discriminate Hk]
  | Hk : true = true |- _ => clear Hk
  end.

(** Names the handler a keyword is dispatched to. *)
Ltac to_handler :=
  match goal with
  | |- context [dispatch ?o ?l "VT" ?s] =>
      change (dispatch o l "VT" s) with (on_VT l s); unfold on_VT
  | |- context [dispatch ?o ?l "ANIM_trans" ?s] =>
      change (dispatch o l "ANIM_trans" s) with (on_ANIM_trans l s);
      unfold on_ANIM_trans
  | |- context [dispatch ?o ?l "TRIS" ?s] =>
      change (dispatch o l "TRIS" s) with (on_TRIS o l s); unfold on_TRIS
  end;
  rewrite ?field_spec, ?ifield_spec.

(** X3.  A record shorter than its handler reads is not skipped: when
    every field that is present converts, a [VT] line with fewer than 8
    fields, an [ANIM_trans] line with fewer than 3, a [TRIS] line with
    fewer than 2, a texture line without a file name (or
    [TEXTURE_DRAPED_NORMAL] with fewer than 2 fields) raises [IndexError],
    which ends the scan. *)
Theorem X3_short_record_raises_IndexError {F : Type} `{Scalar F}
    (origo : F * F * F) (lineStr kw : string) (args : list string)
    (n : nat) (ok : string -> bool) (st : state F) :
  Py.split lineStr = kw :: args ->
  record_fields kw = Some (n, ok) ->
  (List.length args < n)%nat ->
  forallb ok args = true ->
  step origo lineStr st = Raise IndexError.
Proof.
  intros Hsplit Hrec Hlen Hok. rewrite (step_tokens _ _ _ _ _ Hsplit).
  unfold record_fields in Hrec. cbn [existsb] in Hrec.
  repeat match type of Hrec with
  | context [String.eqb kw ?s] =>
      destruct (String.eqb_spec kw s) as [->|?]
  end;
  cbn in Hrec; inversion Hrec; subst n ok; clear Hrec;
  (destruct args as [|t1 [|t2 [|t3 [|t4 [|t5 [|t6 [|t7 [|t8 rest]]]]]]]];
   cbn [List.length] in Hlen; try lia);
  split_forallb Hok; use_ok;
  try reflexivity;
  to_handler; eval_fields; reflexivity.
Qed.

Lemma X3_short_record_raises_IndexError_witness :
  step origo0 "VT 1 2 3 4 5 6 7" in_block = Raise IndexError.
Proof.
  apply (X3_short_record_raises_IndexError origo0 "VT 1 2 3 4 5 6 7" "VT"
           ["1"; "2"; "3"; "4"; "5"; "6"; "7"] 8%nat is_float);
    [reflexivity | reflexivity | cbn; lia | reflexivity].
Defined.

(** X4.  A numeric record that is long enough but holds a field that does
    not convert ([float] for the first 8 fields of [VT] and the first 3 of
    [ANIM_trans], [int] for the first 2 of [TRIS]) raises [ValueError]:
    no vertex, frame or descriptor is made from it. *)
Theorem X4_bad_number_raises_ValueError {F : Type} `{Scalar F}
    (origo : F * F * F) (lineStr kw : string) (args : list string)
    (n : nat) (ok : string -> bool) (st : state F) :
  Py.split lineStr = kw :: args ->
  record_fields kw = Some (n, ok) ->
  (n <= List.length args)%nat ->
  forallb ok (firstn n args) = false ->
  step origo lineStr st = Raise ValueError.
Proof.
  intros Hsplit Hrec Hlen Hbad. rewrite (step_tokens _ _ _ _ _ Hsplit).
  unfold record_fields in Hrec. cbn [existsb] in Hrec.
  repeat match type of Hrec with
  | context [String.eqb kw ?s] =>
      destruct (String.eqb_spec kw s) as [->|?]
  end;
  cbn in Hrec; inversion Hrec; subst n ok; clear Hrec.
  1-5: (destruct args as [|t1 [|t2 args]]; cbn in Hlen, Hbad;
        solve [lia | discriminate]).
  - destruct args as [|t1 [|t2 [|t3 [|t4 [|t5 [|t6 [|t7 [|t8 rest]]]]]]]];
      cbn [List.length] in Hlen; try lia.
    cbn [firstn forallb] in Hbad. unfold is_float in Hbad.
    to_handler. cbn [nth_error].
    destruct (float t1); cbn [bind]; [|reflexivity].
    destruct (float t3); cbn [bind]; [|reflexivity].
    destruct (float t2); cbn [bind]; [|reflexivity].
    destruct (float t4); cbn [bind]; [|reflexivity].
    destruct (float t6); cbn [bind]; [|reflexivity].
    destruct (float t5); cbn [bind]; [|reflexivity].
    destruct (float t7); cbn [bind]; [|reflexivity].
    destruct (float t8); cbn [bind]; [|reflexivity].
    discriminate Hbad.
  - destruct args as [|t1 [|t2 [|t3 rest]]];
      cbn [List.length] in Hlen; try lia.
    cbn [firstn forallb] in Hbad. unfold is_float in Hbad.
    to_handler. cbn [nth_error].
    destruct (float t1); cbn [bind]; [|reflexivity].
    destruct (float t3); cbn [bind]; [|reflexivity].
    destruct (float t2); cbn [bind]; [|reflexivity].
    discriminate Hbad.
  - destruct args as [|t1 [|t2 rest]];
      cbn [List.length] in Hlen; try lia.
    cbn [firstn forallb] in Hbad.
    to_handler. cbn [nth_error].
    destruct (is_int t1) eqn:E1.
    + unfold is_int in E1. destruct (Py.int t1); [|discriminate]. cbn [bind].
      rewrite andb_true_r in Hbad. cbn [andb] in Hbad.
      now rewrite (is_int_false _ Hbad).
    + now rewrite (is_int_false _ E1).
Qed.

Lemma X4_bad_number_raises_ValueError_witness :
  step origo0 "VT 1 2 3 4 5 6 7 8,5" in_block = Raise ValueError.
Proof.
  apply (X4_bad_number_raises_ValueError origo0 "VT 1 2 3 4 5 6 7 8,5" "VT"
           ["1"; "2"; "3"; "4"; "5"; "6"; "7"; "8,5"] 8%nat is_float);
    [reflexivity | reflexivity | cbn; lia | reflexivity].
Defined.

(** ** The buffers as functions of the file *)

Section Content.
Context {F : Type} `{Scalar F}.

Definition starts_with (kw : string) (line : list string) : bool :=
  match line with
  | k :: _ => (k =? kw)%string
  | [] => false
  end.

(** The integers an index record contributes. *)
Definition indices_of (line : list string) : list Z :=
  if starts_with "IDX10" line || starts_with "IDX" line then
    match mapM Py.int (tl line) with
    | Ok idx => idx
    | Raise _ => []
    end
  else [].

(** The vertex a [VT] record describes: position, normal and UV, with the
    axis change of the importer. *)
Definition vertex_of (line : list string)
  : result ((F * F * F) * (F * F * F) * (F * F)) :=
  x <- field line 1 ;; y <- field line 2 ;; z <- field line 3 ;;
  nx <- field line 4 ;; ny <- field line 5 ;; nz <- field line 6 ;;
  u <- field line 7 ;; v <- field line 8 ;;
  Ok ((x, neg1 z, y), (nx, neg1 nz, ny), (u, v)).

Definition vertices_of (line : list string)
  : list ((F * F * F) * (F * F * F) * (F * F)) :=
  if starts_with "VT" line then
    match vertex_of line with
    | Ok vtx => [vtx]
    | Raise _ => []
    end
  else [].

(** All index entries, and all vertices, of a file, in file order. *)
Definition file_indices (lines : list string) : list Z :=
  flat_map (fun l => indices_of (Py.split l)) lines.

Definition file_vertices (lines : list string)
  : list ((F * F * F) * (F * F * F) * (F * F)) :=
  flat_map (fun l => vertices_of (Py.split l)) lines.

Definition b2z (b : bool) : Z := if b then 1 else 0.
Definition b2n (b : bool) : nat := if b then 1%nat else 0%nat.

Lemma unknown_keyword (kw k : string) :
  existsb (String.eqb kw) known_keywords = false ->
  In k known_keywords -> (kw =? k)%string = false.
Proof.
  intros Hno Hin.
  destruct (kw =? k)%string eqn:E; [|reflexivity].
  assert (Hex : existsb (String.eqb kw) known_keywords = true)
    by (apply existsb_exists; eauto).
  congruence.
Qed.

Lemma has_keyword_split (kw lineStr : string) :
  has_keyword kw lineStr = starts_with kw (Py.split lineStr).
Proof.
  unfold has_keyword, keyword, starts_with.
  now destruct (Py.split lineStr).
Qed.

(** What one line adds to each buffer and counter. *)
Lemma effect_summary (origo : F * F * F) (line : list string)
      (st st' : state F) :
  line_effect origo line st st' ->
  faces st' = faces st ++ indices_of line /\
  verts st' = verts st ++ map (fun v => fst (fst v)) (vertices_of line) /\
  normals st' = normals st ++ map (fun v => snd (fst v)) (vertices_of line) /\
  uv st' = uv st ++ map snd (vertices_of line) /\
  List.length (objects st') =
    (List.length (objects st) + b2n (starts_with "TRIS" line))%nat /\
  anim_nesting st' =
    anim_nesting st + b2z (starts_with "ANIM_begin" line)
                    - b2z (starts_with "ANIM_end" line).
Proof.
  assert (Hsame : forall s s' : state F,
            faces s' = faces s -> verts s' = verts s ->
            normals s' = normals s -> uv s' = uv s ->
            objects s' = objects s -> anim_nesting s' = anim_nesting s ->
            faces s' = faces s ++ [] /\ verts s' = verts s ++ [] /\
            normals s' = normals s ++ [] /\ uv s' = uv s ++ [] /\
            List.length (objects s') = (List.length (objects s) + 0)%nat /\
            anim_nesting s' = anim_nesting s + 0 - 0).
  { intros s s' -> -> -> -> -> ->. rewrite !app_nil_r. repeat split; lia. }
  intros Heff.
  destruct Heff as [st | kw args name st Hkw Hname | args ratio name st Hr Hn
                   | args st st' Hh | kw args st st' Hkw Hh | args st st' Hh
                   | args st st' Hh | args st st' Hh | args st st' Hh
                   | kw args st Hno].
  - now apply Hsame.
  - cbn in Hkw. decompose [or] Hkw; subst; try contradiction;
      now apply Hsame.
  - now apply Hsame.
  - apply on_VT_inv in Hh.
    destruct Hh as (vx & vy & vz & vnx & vny & vnz & uvx & uvy & E).
    decompose [and] E; subst; clear E.
    unfold indices_of, vertices_of, vertex_of.
    cbn [starts_with String.eqb Ascii.eqb Bool.eqb orb andb].
    repeat match goal with E : field _ _ = Ok _ |- _ => rewrite E; clear E end.
    cbn. rewrite app_nil_r. repeat split; lia.
  - apply on_IDX_inv in Hh. destruct Hh as (idx & Hidx & ->).
    cbn in Hkw. decompose [or] Hkw; subst; try contradiction;
      unfold indices_of, vertices_of;
      cbn [starts_with String.eqb Ascii.eqb Bool.eqb orb andb tl] in *;
      rewrite Hidx; cbn; rewrite ?app_nil_r; repeat split; lia.
  - inversion Hh; subst. cbn. rewrite !app_nil_r. repeat split; lia.
  - apply on_ANIM_trans_inv in Hh.
    destruct Hh as (x & y & z & fr & _ & _ & _ & _ & ->).
    cbn. rewrite !app_nil_r. repeat split; lia.
  - apply on_ANIM_end_inv in Hh. destruct Hh as (top & fr & _ & ->).
    cbn. rewrite !app_nil_r. repeat split; lia.
  - apply on_TRIS_inv in Hh. destruct Hh as (off & cnt & _ & _ & ->).
    cbn. rewrite !app_nil_r, length_app. cbn. repeat split; lia.
  - unfold indices_of, vertices_of, starts_with.
    rewrite !(unknown_keyword kw _ Hno) by (cbn; tauto).
    now apply Hsame.
Qed.

(** The same, summed over the lines of a scan. *)
Lemma scan_summary (origo : F * F * F) (lines : list string) :
  forall st st' : state F,
    scan origo lines st = Ok st' ->
    faces st' = faces st ++ file_indices lines /\
    verts st' = verts st ++ map (fun v => fst (fst v)) (file_vertices lines) /\
    normals st' =
      normals st ++ map (fun v => snd (fst v)) (file_vertices lines) /\
    uv st' = uv st ++ map snd (file_vertices lines) /\
    List.length (objects st') =
      (List.length (objects st) + count_keyword "TRIS" lines)%nat /\
    anim_nesting st' =
      anim_nesting st + Z.of_nat (count_keyword "ANIM_begin" lines)
                      - Z.of_nat (count_keyword "ANIM_end" lines).
Proof.
  induction lines as [|l lines IH]; intros st st' Hs.
  - inversion Hs; subst. unfold file_indices, file_vertices, count_keyword.
    cbn. rewrite !app_nil_r. repeat split; lia.
  - cbn [scan] in Hs. bind_inv Hs.
    apply step_effect, effect_summary in E.
    destruct E as (Ef & Ev & En & Eu & Eo & Ea).
    destruct (IH _ _ Hs) as (If & Iv & In_ & Iu & Io & Ia).
    unfold file_indices, file_vertices, count_keyword in *.
    cbn [flat_map filter].
    rewrite !has_keyword_split.
    rewrite If, Iv, In_, Iu, Io, Ia, Ef, Ev, En, Eu, Eo, Ea.
    rewrite !map_app, <- !app_assoc.
    repeat split; try reflexivity.
    + destruct (starts_with "TRIS" (Py.split l)); cbn; lia.
    + destruct (starts_with "ANIM_begin" (Py.split l)),
               (starts_with "ANIM_end" (Py.split l)); cbn [b2z List.length];
        lia.
Qed.

End Content.

(** X5.  After a completed scan the index buffer is the concatenation, in
    file order, of the integers of all [IDX] and [IDX10] records, however
    many integers each record holds; no other line adds to it or removes
    from it. *)
Theorem X5_index_buffer_in_file_order {F : Type} `{Scalar F}
    (origo : F * F * F) (lines : list string) (st : state F) :
  scan origo lines init = Ok st ->
  faces st = file_indices lines.
Proof.
  intros Hs. now destruct (scan_summary origo lines _ _ Hs) as (-> & _).
Qed.

Lemma X5_index_buffer_in_file_order_witness :
  faces (mkState [] [] [0; 1; 2; 2; 1; 3] [] (num 0, num 0, num 0) 0
                 [(num 0, num 0, num 0)] false
                 [(mkVector origo0, [0; 1; 2])] []) =
  file_indices ["IDX10 0 1 2"; "TRIS 0 3"; "IDX 2"; "IDX 1 3"].
Proof.
  apply (X5_index_buffer_in_file_order origo0). vm_compute. reflexivity.
Defined.

(** X6.  After a completed scan, entry [k] of the position, normal and UV
    buffers is made from the [k]-th [VT] record of the file: the three
    buffers are aligned record by record, positions and normals with the
    second and third field exchanged and the new second one negated, the
    UV pair as written. *)
Theorem X6_vertex_buffers_in_file_order {F : Type} `{Scalar F}
    (origo : F * F * F) (lines : list string) (st : state F) :
  scan origo lines init = Ok st ->
  verts st = map (fun v => fst (fst v)) (file_vertices lines) /\
  normals st = map (fun v => snd (fst v)) (file_vertices lines) /\
  uv st = map snd (file_vertices lines).
Proof.
  intros Hs.
  destruct (scan_summary origo lines _ _ Hs) as (_ & -> & -> & -> & _).
  auto.
Qed.

(** A file with two vertices, three indices and one triangle. *)
Definition two_vertex_file : list string :=
  ["VT 1 2 3 4 5 6 7 8"; "VT 0 0 1 0 1 0 1 1"; "IDX 0 1 1"; "TRIS 0 3"].

(** The state after its scan, and the mesh [run] makes of it. *)
Definition two_vertex_state : state Qc :=
  mkState [(num 1, num (-3), num 2); (num 0, num (-1), num 0)]
          [(num 7, num 8); (num 1, num 1)] [0; 1; 1]
          [(num 4, num (-6), num 5); (num 0, num 0, num 1)]
          (num 0, num 0, num 0) 0 [(num 0, num 0, num 0)] false
          [(mkVector origo0, [0; 1; 1])] [].

Definition two_vertex_mesh : mesh Qc :=
  mkMesh 0%nat (mkVector origo0)
         [(num 1, num (-3), num 2); (num 0, num (-1), num 0)]
         [(0, 1, 1)] [(num 7, num 8); (num 1, num 1)]
         [(num 4, num (-6), num 5); (num 0, num 0, num 1)].

Lemma X6_vertex_buffers_in_file_order_witness :
  verts two_vertex_state =
    map (fun v => fst (fst v)) (file_vertices two_vertex_file) /\
  normals two_vertex_state =
    map (fun v => snd (fst v)) (file_vertices two_vertex_file) /\
  uv two_vertex_state = map snd (file_vertices two_vertex_file).
Proof.
  apply (X6_vertex_buffers_in_file_order origo0). vm_compute. reflexivity.
Defined.

Section Numbering.
Context {F : Type} `{Scalar F}.

Lemma createMeshes_counters (st : state F) (objs : list (Vector F * list Z)) :
  forall c, map mesh_counter (createMeshes st c objs) = seq c (List.length objs).
Proof.
  induction objs as [|[orig obj] objs IH]; intros c; [reflexivity|].
  cbn [createMeshes map List.length seq mesh_counter]. now rewrite IH.
Qed.

End Numbering.

(** X7.  [run] creates exactly one mesh per [TRIS] line of the file, and
    numbers them 0, 1, 2, ... in file order: within one file no two meshes
    get the same name. *)
Theorem X7_one_mesh_per_TRIS_line {F : Type} `{Scalar F}
    (lines : list string) (origo : F * F * F) (meshes : list (mesh F)) :
  run lines origo = Ok meshes ->
  map mesh_counter meshes = seq 0 (count_keyword "TRIS" lines).
Proof.
  unfold run. intros Hrun.
  destruct (scan origo lines init) as [st|] eqn:Hs; [|discriminate].
  cbn [bind] in Hrun. inversion Hrun; subst meshes.
  rewrite createMeshes_counters.
  destruct (scan_summary origo lines _ _ Hs) as (_ & _ & _ & _ & -> & _).
  reflexivity.
Qed.

Lemma X7_one_mesh_per_TRIS_line_witness :
  map mesh_counter
      [mkMesh 0%nat (mkVector origo0) [] [(0, 1, 2)] [] [];
       mkMesh 1%nat (mkVector origo0) [] [] [] []] =
  seq 0 (count_keyword "TRIS" ["IDX 0 1 2"; "TRIS 0 3"; "TRISTRIP 0 3"; "TRIS 3 3"]).
Proof.
  apply (X7_one_mesh_per_TRIS_line _ origo0). vm_compute. reflexivity.
Defined.

(** X8.  After a completed scan the nesting counter is the number of
    [ANIM_begin] lines minus the number of [ANIM_end] lines, the stack
    holds one frame more than that, and no prefix of the file has more
    than one [ANIM_end] in excess of its [ANIM_begin] lines. *)
Theorem X8_nesting_counts_begin_minus_end {F : Type} `{Scalar F}
    (origo : F * F * F) (lines : list string) (st : state F) :
  scan origo lines init = Ok st ->
  anim_nesting st =
    Z.of_nat (count_keyword "ANIM_begin" lines)
    - Z.of_nat (count_keyword "ANIM_end" lines) /\
  Z.of_nat (List.length (a_trans st)) =
    1 + Z.of_nat (count_keyword "ANIM_begin" lines)
      - Z.of_nat (count_keyword "ANIM_end" lines) /\
  forall pre post, lines = pre ++ post ->
    (count_keyword "ANIM_end" pre <= count_keyword "ANIM_begin" pre + 1)%nat.
Proof.
  intros Hs.
  assert (Hcount : forall ls s, scan origo ls init = Ok s ->
            anim_nesting s =
              Z.of_nat (count_keyword "ANIM_begin" ls)
              - Z.of_nat (count_keyword "ANIM_end" ls) /\
            stack_shape s).
  { intros ls s Hls. split.
    - destruct (scan_summary origo ls _ _ Hls) as (_ & _ & _ & _ & _ & ->).
      cbn. lia.
    - eapply stack_shape_scan; [exact Hls | exact stack_shape_init]. }
  destruct (Hcount _ _ Hs) as [Hn Hshape]. unfold stack_shape in Hshape.
  split; [exact Hn|]. split; [lia|].
  intros pre post ->. rewrite scan_app in Hs.
  destruct (scan origo pre init) as [s1|] eqn:Hpre; [|discriminate].
  destruct (Hcount _ _ Hpre) as [Hn1 Hshape1]. unfold stack_shape in Hshape1.
  lia.
Qed.

(** A file that leaves one block open, and the state after its scan. *)
Definition open_block_file : list string :=
  ["ANIM_begin"; "ANIM_begin"; "ANIM_end"; "ANIM_trans 0 0 0"].

Definition open_block_state : state Qc :=
  mkState [] [] [] [] (num 0, num 0, num 0) 1
          [(num 0, num 0, num 0); (num 0, num 0, num 0)] true [] [].

Lemma X8_nesting_counts_begin_minus_end_witness :
  anim_nesting open_block_state =
    Z.of_nat (count_keyword "ANIM_begin" open_block_file)
    - Z.of_nat (count_keyword "ANIM_end" open_block_file) /\
  Z.of_nat (List.length (a_trans open_block_state)) =
    1 + Z.of_nat (count_keyword "ANIM_begin" open_block_file)
      - Z.of_nat (count_keyword "ANIM_end" open_block_file) /\
  forall pre post, open_block_file = pre ++ post ->
    (count_keyword "ANIM_end" pre <= count_keyword "ANIM_begin" pre + 1)%nat.
Proof.
  apply (X8_nesting_counts_begin_minus_end origo0). vm_compute. reflexivity.
Defined.

(** ** Where descriptors are placed, and what they hold *)

Section Placement.
Context {F : Type} `{Scalar F}.

(** No translation has been read, and every descriptor so far sits at the
    base placement. *)
Definition placed_at_base (origo : F * F * F) (st : state F) : Prop :=
  trans_available st = false /\
  forall orig obj, In (orig, obj) (objects st) -> orig = mkVector origo.

Lemma placed_at_base_effect (origo : F * F * F) (line : list string)
      (st st' : state F) :
  line_effect origo line st st' ->
  starts_with "ANIM_trans" line = false ->
  placed_at_base origo st -> placed_at_base origo st'.
Proof.
  unfold placed_at_base.
  intros Heff Hkw [Hflag Hobj].
  destruct Heff as [st | kw args name st Hkw' Hname | args ratio name st Hr Hn
                   | args st st' Hh | kw args st st' Hkw' Hh | args st st' Hh
                   | args st st' Hh | args st st' Hh | args st st' Hh
                   | kw args st Hno];
    try (split; assumption).
  - apply on_VT_inv in Hh.
    destruct Hh as (? & ? & ? & ? & ? & ? & ? & ? & E).
    decompose [and] E; subst. split; assumption.
  - apply on_IDX_inv in Hh. destruct Hh as (? & _ & ->). split; assumption.
  - inversion Hh; subst. split; assumption.
  - discriminate Hkw.
  - apply on_ANIM_end_inv in Hh. destruct Hh as (top & fr & _ & ->).
    cbn. rewrite Hflag. split; [now destruct (_ =? _)|assumption].
  - apply on_TRIS_inv in Hh. destruct Hh as (off & cnt & _ & _ & ->).
    cbn. rewrite Hflag. split; [reflexivity|].
    intros orig obj Hin. apply in_app_or in Hin.
    destruct Hin as [Hin|[E|[]]]; [eauto|]. now inversion E.
Qed.

Lemma count_keyword_cons_zero (kw l : string) (ls : list string) :
  count_keyword kw (l :: ls) = 0%nat ->
  has_keyword kw l = false /\ count_keyword kw ls = 0%nat.
Proof.
  unfold count_keyword. cbn [filter].
  destruct (has_keyword kw l); cbn [List.length]; [discriminate|auto].
Qed.

Lemma placed_at_base_scan (origo : F * F * F) (lines : list string) :
  forall st st' : state F,
    scan origo lines st = Ok st' ->
    count_keyword "ANIM_trans" lines = 0%nat ->
    placed_at_base origo st -> placed_at_base origo st'.
Proof.
  induction lines as [|l lines IH]; intros st st' Hs Hc Hp.
  - now inversion Hs; subst.
  - cbn [scan] in Hs. bind_inv Hs.
    apply count_keyword_cons_zero in Hc. destruct Hc as [Hl Hc].
    rewrite has_keyword_split in Hl.
    eapply IH; [exact Hs | exact Hc |].
    eapply placed_at_base_effect; [apply step_effect; exact E | exact Hl | exact Hp].
Qed.

Lemma slice_contiguous {A : Type} (l : list A) (a b : Z) :
  exists before after, l = before ++ Py.slice l a b ++ after.
Proof.
  unfold Py.slice. cbv zeta.
  match goal with
  | |- context [firstn ?k (skipn ?lo l)] =>
      exists (firstn lo l), (skipn k (skipn lo l));
      now rewrite (firstn_skipn k), (firstn_skipn lo)
  end.
Qed.

Lemma slice_length_le {A : Type} (l : list A) (off cnt : Z) :
  0 <= cnt ->
  (List.length (Py.slice l off (off + cnt)) <= Z.to_nat cnt)%nat.
Proof.
  intros Hc. unfold Py.slice, Py.slice_index. rewrite length_firstn.
  destruct (Z.ltb_spec off 0), (Z.ltb_spec (off + cnt) 0); lia.
Qed.

End Placement.

(** X9.  In a file without any [ANIM_trans] line every mesh is placed at
    the base placement [Vector(origo)], however its [ANIM_begin] and
    [ANIM_end] lines nest. *)
Theorem X9_no_translation_no_offset {F : Type} `{Scalar F}
    (lines : list string) (origo : F * F * F) (meshes : list (mesh F)) :
  run lines origo = Ok meshes ->
  count_keyword "ANIM_trans" lines = 0%nat ->
  forall m, In m meshes -> mesh_origin m = mkVector origo.
Proof.
  unfold run. intros Hrun Hc m Hm.
  destruct (scan origo lines init) as [st|] eqn:Hs; [|discriminate].
  cbn [bind] in Hrun. inversion Hrun; subst meshes.
  apply createMeshes_In in Hm.
  destruct Hm as (orig & obj & Hin & -> & _).
  assert (Hp : placed_at_base origo st).
  { eapply placed_at_base_scan; [exact Hs | exact Hc |].
    split; [reflexivity | intros ? ? []]. }
  exact (proj2 Hp _ _ Hin).
Qed.

Lemma X9_no_translation_no_offset_witness :
  mesh_origin (mkMesh 0%nat (num 5, num 0, num 0) [] [(0, 1, 2)] [] [])
    = mkVector (num 5, num 0, num 0).
Proof.
  apply (X9_no_translation_no_offset
           ["IDX 0 1 2"; "ANIM_begin"; "TRIS 0 3"; "ANIM_end"]
           (num 5, num 0, num 0)
           [mkMesh 0%nat (num 5, num 0, num 0) [] [(0, 1, 2)] [] []]);
    [vm_compute; reflexivity | vm_compute; reflexivity | left; reflexivity].
Defined.

(** X10.  A [TRIS] line with any two integers, negative or out of range
    included, raises nothing and appends one descriptor.  The descriptor
    is a contiguous run of the index buffer as it stands, and when the
    count is not negative it holds at most [count] entries. *)
Theorem X10_descriptor_is_a_run_of_the_buffer {F : Type} `{Scalar F}
    (origo : F * F * F) (st : state F) (lineStr t1 t2 : string)
    (rest : list string) (off cnt : Z) :
  Py.split lineStr = "TRIS" :: t1 :: t2 :: rest ->
  Py.int t1 = Ok off -> Py.int t2 = Ok cnt ->
  exists st' orig obj before after,
    step origo lineStr st = Ok st' /\
    objects st' = objects st ++ [(orig, obj)] /\
    faces st = before ++ obj ++ after /\
    (0 <= cnt -> (List.length obj <= Z.to_nat cnt)%nat).
Proof.
  intros Hsplit H1 H2.
  rewrite (step_tokens _ _ _ _ _ Hsplit).
  to_handler. cbn [nth_error]. rewrite H1, H2. cbn [bind].
  destruct (slice_contiguous (faces st) off (off + cnt))
    as (before & after & Hrun).
  do 3 eexists. exists before, after.
  split; [reflexivity|]. cbn [objects faces].
  split; [reflexivity|]. split; [exact Hrun|].
  apply slice_length_le.
Qed.

Lemma X10_descriptor_is_a_run_of_the_buffer_witness :
  exists st' orig obj before after,
    step origo0 "TRIS -4 2" nine_indices = Ok st' /\
    objects st' = objects nine_indices ++ [(orig, obj)] /\
    faces nine_indices = before ++ obj ++ after /\
    (0 <= 2 -> (List.length obj <= Z.to_nat 2)%nat).
Proof.
  apply (X10_descriptor_is_a_run_of_the_buffer origo0 nine_indices
           "TRIS -4 2" "-4" "2" [] (-4) 2);
    vm_compute; reflexivity.
Defined.

(** X11.  Once the root frame has been popped by an unmatched [ANIM_end],
    an [ANIM_trans] line whose three fields convert raises [IndexError],
    as there is no frame to assign to; an [ANIM_begin] line instead pushes
    a new frame and brings the counter back to 0. *)
Theorem X11_translation_without_frame {F : Type} `{Scalar F}
    (origo : F * F * F) (pre : list string) (st : state F)
    (lineStr tx ty tz : string) (rest : list string) (x y z : F) :
  scan origo pre init = Ok st ->
  anim_nesting st = -1 ->
  Py.split lineStr = "ANIM_trans" :: tx :: ty :: tz :: rest ->
  float tx = Some x -> float ty = Some y -> float tz = Some z ->
  step origo lineStr st = Raise IndexError /\
  exists st',
    step origo "ANIM_begin" st = Ok st' /\
    anim_nesting st' = 0 /\ a_trans st' = [Vector_zero].
Proof.
  intros Hscan Hneg Hsplit Hx Hy Hz.
  assert (Hshape : stack_shape st)
    by (eapply stack_shape_scan; [exact Hscan | exact stack_shape_init]).
  unfold stack_shape in Hshape. rewrite Hneg in Hshape.
  destruct (a_trans st) as [|v l] eqn:Ea; [|cbn in Hshape; lia].
  split.
  - rewrite (step_tokens _ _ _ _ _ Hsplit). to_handler. eval_fields.
    rewrite Ea, PyFacts.setitem_nil. reflexivity.
  - rewrite (step_tokens origo "ANIM_begin" "ANIM_begin" [] st eq_refl).
    change (dispatch origo ["ANIM_begin"] "ANIM_begin" st)
      with (on_ANIM_begin st).
    unfold on_ANIM_begin. eexists. split; [reflexivity|].
    cbn [anim_nesting a_trans]. rewrite Hneg, Ea. split; reflexivity.
Qed.

Lemma X11_translation_without_frame_witness :
  step origo0 "ANIM_trans 1 0 0" root_popped = Raise IndexError /\
  exists st',
    step origo0 "ANIM_begin" root_popped = Ok st' /\
    anim_nesting st' = 0 /\ a_trans st' = [Vector_zero].
Proof.
  apply (X11_translation_without_frame origo0 ["ANIM_end"] root_popped
           "ANIM_trans 1 0 0" "1" "0" "0" [] (num 1) (num 0) (num 0));
    vm_compute; reflexivity.
Defined.

(** ** Files that translate each frame at most once *)



Section OncePerFrame.
Context {F : Type} `{ExactScalar F}.





End OncePerFrame.




(** X13.  When every integer of the [IDX] and [IDX10] records of a file is
    at least 0 and less than the number of its [VT] records, every index
    of every triangle [run] hands to [createMeshFromData] is a valid
    position in the three vertex arrays handed over with it, which all
    have one entry per [VT] record. *)
Theorem X13_valid_indices_give_valid_triangles {F : Type} `{Scalar F}
    (lines : list string) (origo : F * F * F) (meshes : list (mesh F)) :
  run lines origo = Ok meshes ->
  (forall i, In i (file_indices lines) ->
     0 <= i < Z.of_nat (List.length (@file_vertices F _ lines))) ->
  forall m, In m meshes ->
    List.length (mesh_verts m) = List.length (@file_vertices F _ lines) /\
    List.length (mesh_normals m) = List.length (mesh_verts m) /\
    List.length (mesh_uvs m) = List.length (mesh_verts m) /\
    forall a b c, In (a, b, c) (mesh_faces m) ->
      0 <= a < Z.of_nat (List.length (mesh_verts m)) /\
      0 <= b < Z.of_nat (List.length (mesh_verts m)) /\
      0 <= c < Z.of_nat (List.length (mesh_verts m)).
Proof.
  unfold run. intros Hrun Hvalid m Hm.
  destruct (scan origo lines init) as [st|] eqn:Hs; [|discriminate].
  cbn [bind] in Hrun. inversion Hrun; subst meshes; clear Hrun.
  destruct (scan_summary origo lines _ _ Hs) as (Hf & Hv & Hn & Hu & _).
  cbn [init faces verts normals uv app] in Hf, Hv, Hn, Hu.
  assert (Hof : objects_from_faces st).
  { refine (scan_preserves objects_from_faces origo _ _ _ _ Hs _).
    - intros l s s'. apply objects_from_faces_step.
    - intros ? ? ? []. }
  apply createMeshes_In in Hm.
  destruct Hm as (orig & obj & Hin & _ & Hmf & -> & -> & ->).
  rewrite Hv, Hn, Hu, !length_map.
  repeat (split; [reflexivity|]).
  intros a b c Habc. rewrite Hmf in Habc. apply triplets_In in Habc.
  destruct Habc as (Ha & Hb & Hc).
  repeat split; apply Hvalid; rewrite <- Hf; eapply Hof; eassumption.
Qed.

Lemma X13_valid_indices_give_valid_triangles_witness :
  List.length (mesh_verts two_vertex_mesh)
    = List.length (@file_vertices Qc _ two_vertex_file) /\
  List.length (mesh_normals two_vertex_mesh)
    = List.length (mesh_verts two_vertex_mesh) /\
  List.length (mesh_uvs two_vertex_mesh)
    = List.length (mesh_verts two_vertex_mesh) /\
  forall a b c, In (a, b, c) (mesh_faces two_vertex_mesh) ->
    0 <= a < Z.of_nat (List.length (mesh_verts two_vertex_mesh)) /\
    0 <= b < Z.of_nat (List.length (mesh_verts two_vertex_mesh)) /\
    0 <= c < Z.of_nat (List.length (mesh_verts two_vertex_mesh)).
Proof.
  apply (X13_valid_indices_give_valid_triangles two_vertex_file origo0
           [two_vertex_mesh]).
  - vm_compute. reflexivity.
  - vm_compute. intros i [<-|[<-|[<-|[]]]]; split; discriminate || reflexivity.
  - left. reflexivity.
Defined.

(** ** [createMeshFromData]: what is read from the arrays *)

(** The mesh itself belongs to the host.  Two pieces of
    [createMeshFromData] are plain Python over the arrays [run] passes:
    the comprehension that lays out the UV pairs for [foreach_set], which
    reads [vert_uvs] at the vertex index of every loop of the mesh, and
    the loop that gives each vertex of the mesh its normal.  The vertex
    indices of the loops and the number of vertices are the host's. *)

Section MeshData.
Context {F : Type}.

(** [l[i]] for an integer [i]; negative indices count from the end. *)
Definition getitem_int {A : Type} (l : list A) (i : Z) : result A :=
  let n := Z.of_nat (List.length l) in
  if (- n <=? i) && (i <? n)
  then Py.getitem l (Z.to_nat (if i <? 0 then i + n else i))
  else Raise IndexError.

(** [[uv for pair in [vert_uvs[l.vertex_index] for l in me.loops]
      for uv in pair]]: the inner list is built first. *)
Definition loop_uvs (vert_uvs : list (F * F)) (loops : list Z)
  : result (list F) :=
  pairs <- mapM (getitem_int vert_uvs) loops ;;
  Ok (flat_map (fun pair => [fst pair; snd pair]) pairs).

(** [for vertex in me.vertices: vertex.normal = vert_normals[vindex]],
    with [vindex] counting from 0: the normals assigned, vertex by
    vertex. *)
Definition vertex_normals (vert_normals : list (F * F * F)) (nvertices : nat)
  : result (list (F * F * F)) :=
  mapM (Py.getitem vert_normals) (seq 0 nvertices).

Lemma getitem_int_in_range {A : Type} (l : list A) (i : Z) :
  - Z.of_nat (List.length l) <= i < Z.of_nat (List.length l) ->
  exists a, getitem_int l i = Ok a.
Proof.
  intros Hi. unfold getitem_int.
  replace (_ && _) with true
    by (symmetry; apply andb_true_iff; split;
        [apply Z.leb_le | apply Z.ltb_lt]; lia).
  unfold Py.getitem.
  destruct (nth_error l _) as [a|] eqn:E; [eauto|].
  apply nth_error_None in E. destruct (Z.ltb_spec i 0); lia.
Qed.

Lemma getitem_int_out_of_range {A : Type} (l : list A) (i : Z) :
  ~ (- Z.of_nat (List.length l) <= i < Z.of_nat (List.length l)) ->
  getitem_int l i = Raise IndexError.
Proof.
  intros Hi. unfold getitem_int.
  replace (_ && _) with false; [reflexivity|].
  symmetry. apply andb_false_iff.
  destruct (Z.leb_spec (- Z.of_nat (List.length l)) i); [right|now left].
  apply Z.ltb_ge. lia.
Qed.

Lemma getitem_int_raises {A : Type} (l : list A) (i : Z) (e : exn) :
  getitem_int l i = Raise e -> e = IndexError.
Proof.
  unfold getitem_int, Py.getitem.
  destruct (_ && _); [|now intros [= <-]].
  destruct (nth_error l _); [discriminate|now intros [= <-]].
Qed.

Lemma mapM_ok {A B : Type} (f : A -> result B) (l : list A) :
  (forall a, In a l -> exists b, f a = Ok b) ->
  exists bs,
    mapM f l = Ok bs /\
    forall k a, nth_error l k = Some a ->
      exists b, f a = Ok b /\ nth_error bs k = Some b.
Proof.
  induction l as [|a l IH]; intros Hall.
  - exists []. split; [reflexivity|]. intros [|k]; discriminate.
  - destruct (Hall a (or_introl eq_refl)) as [b Hb].
    destruct IH as (bs & Hbs & Hnth); [intros; apply Hall; now right|].
    exists (b :: bs). cbn [mapM]. rewrite Hb, Hbs. split; [reflexivity|].
    intros [|k] x Hx; cbn [nth_error] in *.
    + inversion Hx; subst. eauto.
    + eauto.
Qed.

Lemma mapM_length {A B : Type} (f : A -> result B) (l : list A) (bs : list B) :
  mapM f l = Ok bs -> List.length bs = List.length l.
Proof.
  revert bs. induction l as [|a l IH]; intros bs Hm; cbn [mapM] in Hm.
  - now inversion Hm.
  - bind_inv Hm. inversion Hm; subst. cbn. f_equal. auto.
Qed.

Lemma mapM_raise {A B : Type} (f : A -> result B) (l : list A) (e : exn) :
  (forall a e', f a = Raise e' -> e' = e) ->
  (exists a, In a l /\ f a = Raise e) ->
  mapM f l = Raise e.
Proof.
  intros Honly. induction l as [|a l IH]; intros (x & Hin & Hx).
  - destruct Hin.
  - cbn [mapM]. destruct (f a) as [b|e'] eqn:Ea.
    + cbn [bind]. destruct Hin as [->|Hin]; [congruence|].
      rewrite IH by eauto. reflexivity.
    + cbn [bind]. now rewrite (Honly _ _ Ea).
Qed.

Lemma pairs_layout (pairs : list (F * F)) :
  List.length (flat_map (fun pair => [fst pair; snd pair]) pairs)
    = (2 * List.length pairs)%nat /\
  forall k p, nth_error pairs k = Some p ->
    nth_error (flat_map (fun pair => [fst pair; snd pair]) pairs) (2 * k)
      = Some (fst p) /\
    nth_error (flat_map (fun pair => [fst pair; snd pair]) pairs) (2 * k + 1)
      = Some (snd p).
Proof.
  induction pairs as [|q pairs [IHl IHn]].
  - split; [reflexivity|]. intros [|k]; discriminate.
  - split.
    + cbn [flat_map app List.length]. rewrite IHl. lia.
    + intros [|k] p Hp; cbn [nth_error] in Hp.
      * inversion Hp; subst. split; reflexivity.
      * destruct (IHn _ _ Hp) as [Hu Hv].
        replace (2 * S k)%nat with (S (S (2 * k))) by lia.
        replace (S (S (2 * k)) + 1)%nat with (S (S (2 * k + 1))) by lia.
        cbn [flat_map app nth_error]. auto.
Qed.

Lemma vertex_normals_prefix (vert_normals : list (F * F * F)) :
  forall (n c : nat),
    (c + n <= List.length vert_normals)%nat ->
    mapM (Py.getitem vert_normals) (seq c n)
      = Ok (firstn n (skipn c vert_normals)).
Proof.
  induction n as [|n IH]; intros c Hle; [reflexivity|].
  cbn [seq mapM]. unfold Py.getitem at 1.
  destruct (nth_error vert_normals c) as [a|] eqn:Ea.
  - cbn [bind]. rewrite IH by lia. cbn [bind].
    rewrite <- (firstn_skipn c vert_normals) in Ea at 1.
    rewrite nth_error_app2 in Ea by (rewrite length_firstn; lia).
    rewrite length_firstn, Nat.min_l, Nat.sub_diag in Ea by lia.
    destruct (skipn c vert_normals) as [|x r] eqn:Es; [discriminate|].
    cbn in Ea. inversion Ea; subst.
    replace (skipn (S c) vert_normals) with r; [reflexivity|].
    change (S c) with (1 + c)%nat. rewrite <- skipn_skipn, Es. reflexivity.
  - apply nth_error_None in Ea. lia.
Qed.

End MeshData.

(** X14.  When the vertex index of every loop is a valid index of
    [vert_uvs], the UV comprehension of [createMeshFromData] raises
    nothing and yields exactly two floats per loop, in loop order: entries
    [2k] and [2k+1] are the [u] and the [v] of the vertex of loop [k],
    which is the length and layout [foreach_set] expects. *)
Theorem X14_uv_layout_per_loop {F : Type}
    (vert_uvs : list (F * F)) (loops : list Z) :
  (forall i, In i loops ->
     - Z.of_nat (List.length vert_uvs) <= i < Z.of_nat (List.length vert_uvs)) ->
  exists flat,
    loop_uvs vert_uvs loops = Ok flat /\
    List.length flat = (2 * List.length loops)%nat /\
    forall k i, nth_error loops k = Some i ->
      exists u v,
        getitem_int vert_uvs i = Ok (u, v) /\
        nth_error flat (2 * k) = Some u /\
        nth_error flat (2 * k + 1) = Some v.
Proof.
  intros Hrange.
  destruct (mapM_ok (getitem_int vert_uvs) loops) as (pairs & Hp & Hnth).
  { intros i Hi. apply getitem_int_in_range, Hrange, Hi. }
  unfold loop_uvs. rewrite Hp. cbn [bind].
  destruct (pairs_layout pairs) as [Hlen Hlay].
  eexists. split; [reflexivity|]. split.
  - rewrite Hlen. now rewrite (mapM_length _ _ _ Hp).
  - intros k i Hk. destruct (Hnth _ _ Hk) as ([u v] & Hi & Hpk).
    exists u, v. split; [exact Hi|]. exact (Hlay _ _ Hpk).
Qed.

Lemma X14_uv_layout_per_loop_witness :
  exists flat,
    loop_uvs [(num 7, num 8); (num 1, num 1)] [1; 0; 1] = Ok flat /\
    List.length flat = (2 * List.length [1; 0; 1])%nat /\
    forall k i, nth_error [1; 0; 1] k = Some i ->
      exists u v,
        getitem_int [(num 7, num 8); (num 1, num 1)] i = Ok (u, v) /\
        nth_error flat (2 * k) = Some u /\
        nth_error flat (2 * k + 1) = Some v.
Proof.
  apply (X14_uv_layout_per_loop [(num 7, num 8); (num 1, num 1)] [1; 0; 1]).
  intros i [<-|[<-|[<-|[]]]]; cbn; lia.
Defined.

(** X15.  When the vertex index of some loop is not a valid index of
    [vert_uvs], the UV comprehension raises [IndexError]: nothing in
    [createMeshFromData] guards the lookup. *)
Theorem X15_uv_lookup_out_of_range {F : Type}
    (vert_uvs : list (F * F)) (loops : list Z) (i : Z) :
  In i loops ->
  ~ (- Z.of_nat (List.length vert_uvs) <= i < Z.of_nat (List.length vert_uvs)) ->
  loop_uvs vert_uvs loops = Raise IndexError.
Proof.
  intros Hin Hout. unfold loop_uvs.
  rewrite (mapM_raise (getitem_int vert_uvs) loops IndexError).
  - reflexivity.
  - intros a e. apply getitem_int_raises.
  - exists i. split; [exact Hin|]. now apply getitem_int_out_of_range.
Qed.

Lemma X15_uv_lookup_out_of_range_witness :
  loop_uvs (@nil (Qc * Qc)) [7; 7; 7] = Raise IndexError.
Proof.
  apply (X15_uv_lookup_out_of_range (@nil (Qc * Qc)) [7; 7; 7] 7).
  - cbn. auto.
  - cbn. lia.
Defined.

(** X16.  For every mesh of a completed [run], the normal loop of
    [createMeshFromData], run over a mesh that has one vertex per entry of
    [verts], never reads [vert_normals] out of range and gives vertex [k]
    the normal of the [k]-th [VT] record: the normals assigned are
    exactly the normal buffer. *)
Theorem X16_every_vertex_gets_its_normal {F : Type} `{Scalar F}
    (lines : list string) (origo : F * F * F) (meshes : list (mesh F))
    (m : mesh F) :
  run lines origo = Ok meshes ->
  In m meshes ->
  vertex_normals (mesh_normals m) (List.length (mesh_verts m))
    = Ok (mesh_normals m) /\
  mesh_normals m = map (fun v => snd (fst v)) (file_vertices lines).
Proof.
  unfold run. intros Hrun Hm.
  destruct (scan origo lines init) as [st|] eqn:Hs; [|discriminate].
  cbn [bind] in Hrun. inversion Hrun; subst meshes; clear Hrun.
  destruct (scan_summary origo lines _ _ Hs) as (_ & Hv & Hn & _).
  cbn [init verts normals app] in Hv, Hn.
  apply createMeshes_In in Hm.
  destruct Hm as (orig & obj & _ & _ & _ & -> & _ & ->).
  split; [|exact Hn].
  unfold vertex_normals. rewrite vertex_normals_prefix.
  - cbn [skipn]. rewrite firstn_all2; [reflexivity|].
    rewrite Hv, Hn, !length_map. lia.
  - rewrite Hv, Hn, !length_map. lia.
Qed.

Lemma X16_every_vertex_gets_its_normal_witness :
  vertex_normals (mesh_normals two_vertex_mesh)
                 (List.length (mesh_verts two_vertex_mesh))
    = Ok (mesh_normals two_vertex_mesh) /\
  mesh_normals two_vertex_mesh =
    map (fun v => snd (fst v)) (file_vertices two_vertex_file).
Proof.
  apply (X16_every_vertex_gets_its_normal two_vertex_file origo0
           [two_vertex_mesh]).
  - vm_compute. reflexivity.
  - left. reflexivity.
Defined.

(** ** [execute]: one [run] per selected file *)

Section Batch.
Context {F : Type} `{Scalar F}.


End Batch.



(** ** Texture lines *)

(** The file name a texture line passes to [loadTexture]. *)
Definition texture_of (line : list string) : list string :=
  if existsb (fun kw => starts_with kw line)
             ["TEXTURE"; "TEXTURE_DRAPED"; "TEXTURE_LIT"; "TEXTURE_NORMAL"]
  then match nth_error line 1 with
       | Some name => [name]
       | None => []
       end
  else if starts_with "TEXTURE_DRAPED_NORMAL" line
  then match nth_error line 2 with
       | Some name => [name]
       | None => []
       end
  else [].

Section Textures.
Context {F : Type} `{Scalar F}.

Lemma effect_textures (origo : F * F * F) (line : list string)
      (st st' : state F) :
  line_effect origo line st st' ->
  textures st' = textures st ++ texture_of line.
Proof.
  intros Heff.
  destruct Heff as [st | kw args name st Hkw Hname | args ratio name st Hr Hn
                   | args st st' Hh | kw args st st' Hkw Hh | args st st' Hh
                   | args st st' Hh | args st st' Hh | args st st' Hh
                   | kw args st Hno].
  - cbn. now rewrite app_nil_r.
  - cbn in Hkw. decompose [or] Hkw; subst; try contradiction;
      unfold texture_of;
      cbn [existsb starts_with String.eqb Ascii.eqb Bool.eqb orb andb];
      rewrite Hname; reflexivity.
  - unfold texture_of.
    cbn [existsb starts_with String.eqb Ascii.eqb Bool.eqb orb andb].
    rewrite Hn. reflexivity.
  - apply on_VT_inv in Hh.
    destruct Hh as (? & ? & ? & ? & ? & ? & ? & ? & E).
    decompose [and] E; subst. cbn. now rewrite app_nil_r.
  - apply on_IDX_inv in Hh. destruct Hh as (? & _ & ->).
    cbn in Hkw. decompose [or] Hkw; subst; try contradiction;
      cbn; now rewrite app_nil_r.
  - inversion Hh; subst. cbn. now rewrite app_nil_r.
  - apply on_ANIM_trans_inv in Hh.
    destruct Hh as (x & y & z & fr & _ & _ & _ & _ & ->).
    cbn. now rewrite app_nil_r.
  - apply on_ANIM_end_inv in Hh. destruct Hh as (top & fr & _ & ->).
    cbn. now rewrite app_nil_r.
  - apply on_TRIS_inv in Hh. destruct Hh as (? & ? & _ & _ & ->).
    cbn. now rewrite app_nil_r.
  - unfold texture_of. cbn [existsb starts_with].
    rewrite !(unknown_keyword kw _ Hno) by (cbn; tauto).
    cbn. now rewrite app_nil_r.
Qed.

Lemma scan_textures (origo : F * F * F) (lines : list string) :
  forall st st' : state F,
    scan origo lines st = Ok st' ->
    textures st' =
      textures st ++ flat_map (fun l => texture_of (Py.split l)) lines.
Proof.
  induction lines as [|l lines IH]; intros st st' Hs.
  - inversion Hs; subst. cbn. now rewrite app_nil_r.
  - cbn [scan] in Hs. bind_inv Hs.
    rewrite (IH _ _ Hs), (effect_textures _ _ _ _ (step_effect _ _ _ _ E)).
    cbn [flat_map]. now rewrite app_assoc.
Qed.

End Textures.

(** X18.  During a completed scan [loadTexture] is called once per texture
    line, in file order, with the field after the keyword as file name,
    except for [TEXTURE_DRAPED_NORMAL], whose first field is the ratio and
    whose second field is the file name; no other line loads a
    texture. *)
Theorem X18_textures_in_file_order {F : Type} `{Scalar F}
    (origo : F * F * F) (lines : list string) (st : state F) :
  scan origo lines init = Ok st ->
  textures st = flat_map (fun l => texture_of (Py.split l)) lines.
Proof.
  intros Hs. now rewrite (scan_textures origo lines _ _ Hs).
Qed.

Lemma X18_textures_in_file_order_witness :
  textures (mkState [] [] [] [] (num 0, num 0, num 0) 0
                    [(num 0, num 0, num 0)] false []
                    ["a.png"; "n.png"; "lit.png"]) =
  flat_map (fun l => texture_of (Py.split l))
           ["TEXTURE a.png"; "TEXTURE_DRAPED_NORMAL 2.5 n.png"; "ATTR_hard";
            "TEXTURE_LIT lit.png"].
Proof.
  apply (X18_textures_in_file_order origo0). vm_compute. reflexivity.
Defined.

(** ** The final loop, with [createMeshFromData] as it may raise *)

Section Assembly.
Context {F : Type} `{Scalar F}.

(** [for orig, obj in objects: ... self.createMeshFromData(...)] with the
    outcome of every call given by [create]: the calls made, in order, the
    one that raised included, and how the loop ended.  Nothing catches an
    exception of a call, so the first one ends the loop and [run]. *)
Fixpoint assemble (create : mesh F -> result unit) (meshes : list (mesh F))
  : list (mesh F) * result unit :=
  match meshes with
  | [] => ([], Ok tt)
  | m :: rest =>
      match create m with
      | Raise e => ([m], Raise e)
      | Ok _ =>
          let '(calls, outcome) := assemble create rest in
          (m :: calls, outcome)
      end
  end.

(** [run], with the calls it makes and the exception that ends it, if
    any.  No call is made when the scan raises. *)
Definition run_calls (create : mesh F -> result unit)
           (lines : list string) (origo : F * F * F)
  : list (mesh F) * result unit :=
  match scan origo lines init with
  | Raise e => ([], Raise e)
  | Ok st => assemble create (createMeshes st 0 (objects st))
  end.

(** What Python evaluates in [createMeshFromData], on a mesh as
    [from_pydata] builds it from [verts] and [faces]: one vertex per
    position, and the loops are the corners of the faces, face by face.
    The UV comprehension comes first, then the loop over the vertices. *)
Definition createMeshFromData (m : mesh F) : result unit :=
  uvs <- loop_uvs (mesh_uvs m) (PyFacts.flatten (mesh_faces m)) ;;
  nrm <- vertex_normals (mesh_normals m) (List.length (mesh_verts m)) ;;
  Ok tt.

Lemma assemble_calls (create : mesh F -> result unit) (meshes : list (mesh F)) :
  forall calls outcome,
    assemble create meshes = (calls, outcome) ->
    (forall k m, nth_error calls k = Some m -> nth_error meshes k = Some m) /\
    (outcome = Ok tt -> calls = meshes) /\
    (forall e, outcome = Raise e ->
       exists m, nth_error calls (List.length calls - 1) = Some m /\
                 create m = Raise e) /\
    (forall k m, nth_error calls k = Some m ->
       (S k < List.length calls)%nat -> create m = Ok tt).
Proof.
  induction meshes as [|m0 rest IH]; intros calls outcome Ha;
    cbn [assemble] in Ha.
  - inversion Ha; subst. repeat split.
    + intros [|k] m; discriminate.
    + discriminate.
    + intros [|k] m; discriminate.
  - destruct (create m0) as [[]|e0] eqn:Ec.
    + destruct (assemble create rest) as [calls1 outcome1] eqn:Er.
      inversion Ha; subst; clear Ha.
      destruct (IH _ _ eq_refl) as (Hpre & Hall & Hraise & Hok).
      repeat split.
      * intros [|k] m Hk; cbn [nth_error] in *; [assumption|auto].
      * intros Ho. now rewrite (Hall Ho).
      * intros e He. destruct (Hraise e He) as (m & Hm & Hc).
        exists m. split; [|exact Hc].
        cbn [List.length]. rewrite Nat.sub_succ, Nat.sub_0_r.
        destruct calls1 as [|c1 calls1]; [destruct (List.length [] - 1)%nat; discriminate|].
        cbn [List.length] in *. rewrite Nat.sub_succ, Nat.sub_0_r in Hm.
        exact Hm.
      * intros [|k] m Hk Hlt; cbn [nth_error List.length] in *.
        -- now inversion Hk; subst.
        -- apply (Hok k m Hk). lia.
    + inversion Ha; subst; clear Ha. repeat split.
      * intros [|[|k]] m Hk; cbn [nth_error] in *; try discriminate.
        assumption.
      * discriminate.
      * intros e He. inversion He; subst. exists m0. split; [reflexivity|assumption].
      * intros [|[|k]] m Hk Hlt; cbn [nth_error List.length] in *;
          try discriminate; lia.
Qed.

Lemma createMeshes_nth_inv (st : state F) (objs : list (Vector F * list Z)) :
  forall (c k : nat) (m : mesh F),
    nth_error (createMeshes st c objs) k = Some m ->
    exists orig obj,
      nth_error objs k = Some (orig, obj) /\
      m = mkMesh (c + k) orig (verts st) (Py.triplets obj) (uv st) (normals st).
Proof.
  intros c k m Hk.
  destruct (nth_error objs k) as [[orig obj]|] eqn:Eo.
  - exists orig, obj. split; [reflexivity|].
    rewrite (createMeshes_nth st objs c k orig obj Eo) in Hk. now inversion Hk.
  - apply nth_error_None in Eo.
    assert (Hsome : nth_error (createMeshes st c objs) k <> None) by congruence.
    apply nth_error_Some in Hsome. rewrite createMeshes_length in Hsome. lia.
Qed.

End Assembly.

(** C5, as the source has it.  Grouping raises nothing and skips nothing.
    After a completed scan, whatever [createMeshFromData] does, the call
    made at position [k] is the one for descriptor [k]: its faces are the
    consecutive triples of the slice, [length obj / 3] of them, so one or
    two trailing indices are dropped in silence, and when the length of
    the slice is a multiple of 3 the triples are the whole slice.  The
    descriptors are taken in order and none is passed over: the loop
    ends before the last descriptor only where a call of
    [createMeshFromData] raises, and with that exception. *)
Theorem C5_grouping_raises_nothing {F : Type} `{Scalar F}
    (create : mesh F -> result unit)
    (lines : list string) (origo : F * F * F) (st : state F) :
  scan origo lines init = Ok st ->
  exists calls outcome,
    run_calls create lines origo = (calls, outcome) /\
    (forall k m,
       nth_error calls k = Some m ->
       exists orig obj,
         nth_error (objects st) k = Some (orig, obj) /\
         mesh_counter m = k /\ mesh_origin m = orig /\
         mesh_faces m = Py.triplets obj /\
         List.length (mesh_faces m) = (List.length obj / 3)%nat /\
         PyFacts.flatten (mesh_faces m) =
           firstn (3 * (List.length obj / 3)) obj /\
         ((List.length obj mod 3 = 0)%nat ->
          PyFacts.flatten (mesh_faces m) = obj)) /\
    (outcome = Ok tt -> List.length calls = List.length (objects st)) /\
    (forall e, outcome = Raise e ->
       exists m, nth_error calls (List.length calls - 1) = Some m /\
                 create m = Raise e) /\
    (forall k m, nth_error calls k = Some m ->
       (S k < List.length calls)%nat -> create m = Ok tt).
Proof.
  intros Hscan. unfold run_calls. rewrite Hscan.
  destruct (assemble create (createMeshes st 0 (objects st)))
    as [calls outcome] eqn:Ea.
  destruct (assemble_calls _ _ _ _ Ea) as (Hpre & Hall & Hraise & Hok).
  exists calls, outcome. split; [reflexivity|]. split; [|split; [|split]].
  - intros k m Hk. apply Hpre, createMeshes_nth_inv in Hk.
    destruct Hk as (orig & obj & Ho & ->). exists orig, obj.
    split; [exact Ho|]. cbn [mesh_counter mesh_origin mesh_faces].
    repeat split.
    + apply PyFacts.triplets_length.
    + apply PyFacts.triplets_flatten.
    + intros Hmod. rewrite PyFacts.triplets_flatten.
      apply firstn_all2.
      pose proof (Nat.div_mod_eq (List.length obj) 3). lia.
  - intros Ho. rewrite (Hall Ho). apply createMeshes_length.
  - exact Hraise.
  - exact Hok.
Qed.

(** A file with four vertices whose [TRIS] line counts four indices. *)
Definition four_index_file : list string :=
  ["VT 1 2 3 4 5 6 7 8"; "VT 2 2 3 4 5 6 7 8"; "VT 3 2 3 4 5 6 7 8";
   "VT 4 2 3 4 5 6 7 8"; "IDX 0 1 2 3"; "TRIS 0 4"].

Lemma C5_grouping_raises_nothing_witness :
  exists st,
    scan origo_ieee four_index_file init = Ok st /\
    exists calls outcome,
      run_calls createMeshFromData four_index_file origo_ieee
        = (calls, outcome) /\
      (forall k m,
         nth_error calls k = Some m ->
         exists orig obj,
           nth_error (objects st) k = Some (orig, obj) /\
           mesh_counter m = k /\ mesh_origin m = orig /\
           mesh_faces m = Py.triplets obj /\
           List.length (mesh_faces m) = (List.length obj / 3)%nat /\
           PyFacts.flatten (mesh_faces m) =
             firstn (3 * (List.length obj / 3)) obj /\
           ((List.length obj mod 3 = 0)%nat ->
            PyFacts.flatten (mesh_faces m) = obj)) /\
      (outcome = Ok tt -> List.length calls = List.length (objects st)) /\
      (forall e, outcome = Raise e ->
         exists m, nth_error calls (List.length calls - 1) = Some m /\
                   createMeshFromData m = Raise e) /\
      (forall k m, nth_error calls k = Some m ->
         (S k < List.length calls)%nat -> createMeshFromData m = Ok tt).
Proof.
  eexists. split; [vm_compute; reflexivity|].
  apply (C5_grouping_raises_nothing createMeshFromData four_index_file
           origo_ieee).
  vm_compute. reflexivity.
Defined.

(** C5 as stated fails.  In a file with four vertices, [TRIS 0 4] has a
    count that is no multiple of 3, yet nothing is raised and the
    descriptor is not skipped: [createMeshFromData] is called for it, with
    the single triangle [(0, 1, 2)] and all four vertices, and returns;
    the fourth index is dropped. *)
Lemma C5_malformed_count_counterexample :
  exists st m,
    scan origo_ieee four_index_file init = Ok st /\
    List.length (verts st) = 4%nat /\
    map snd (objects st) = [[0; 1; 2; 3]] /\
    run_calls createMeshFromData four_index_file origo_ieee = ([m], Ok tt) /\
    mesh_counter m = 0%nat /\
    mesh_faces m = [(0, 1, 2)] /\
    mesh_verts m = verts st /\
    createMeshFromData m = Ok tt.
Proof.
  eexists. eexists.
  split; [vm_compute; reflexivity|].
  split; [reflexivity|]. split; [reflexivity|].
  split; [vm_compute; reflexivity|].
  repeat split.
Qed.

Section RunAndCalls.
Context {F : Type} `{Scalar F}.

(** [run] lists the calls [run_calls] attempts: those made are a prefix of
    that list, and all of it when no call raises. *)
Lemma run_calls_of_run (create : mesh F -> result unit)
      (lines : list string) (origo : F * F * F) (meshes : list (mesh F)) :
  run lines origo = Ok meshes ->
  run_calls create lines origo = assemble create meshes.
Proof.
  unfold run, run_calls.
  destruct (scan origo lines init) as [st|]; [|discriminate].
  cbn [bind]. now intros [= <-].
Qed.

End RunAndCalls.
